(** * protopipe [write_dl2.py]: DL2 record writer

    A shallow embedding of [protopipe/scripts/write_dl2.py] and the
    properties of its event loop: intensity-weighted fusion of the
    per-telescope estimates, the [RecoEvent] table row, the order of
    [flush]/[append], cooperative cancellation, the input-file guard and the
    names of the model files. *)

From Stdlib Require Import ZArith Floats.SpecFloat Strings.Ascii.
From stdpp Require Import base option list sorting gmap strings.

Open Scope Z_scope.

(** ** Numbers *)

(** [numpy.float64]: IEEE 754 binary64, round to nearest even, through the
    executable specification of the Standard Library. *)
Module F64.
Definition prec : Z := 53.
Definition emax : Z := 1024.

Definition add : spec_float → spec_float → spec_float := SFadd prec emax.
Definition mul : spec_float → spec_float → spec_float := SFmul prec emax.
Definition div : spec_float → spec_float → spec_float := SFdiv prec emax.

Definition zero : spec_float := S754_zero false.
Definition nan : spec_float := S754_nan.
Definition of_Z (z : Z) : spec_float := binary_normalize prec emax z 0 false.

Definition is_nan (x : spec_float) : bool :=
    match x with S754_nan => true | _ => false end.
Definition is_zero (x : spec_float) : bool :=
    match x with S754_zero _ => true | _ => false end.
Definition is_finite (x : spec_float) : bool :=
    match x with S754_zero _ | S754_finite _ _ _ => true | _ => false end.
  (** Python's [x > 0] on a float. *)
Definition is_pos (x : spec_float) : bool := SFltb zero x.
End F64.

(** [numpy.float32], the cell type of a [tb.Float32Col]: storing a double
    rounds it to binary32. *)
Module F32.
Definition prec : Z := 24.
Definition emax : Z := 128.
Definition of_f64 (x : spec_float) : spec_float :=
    match x with
    | S754_finite s m e => binary_round prec emax s m e
    | _ => x
    end.
End F32.

Abbreviation float := spec_float.

(** Two's-complement reduction of an integer into a signed [w]-bit cell,
    what storing into [tb.Int16Col] / [tb.Int32Col] keeps. *)
Definition wrap (w : Z) (z : Z) : Z :=
  (z + 2 ^ (w - 1)) mod 2 ^ w - 2 ^ (w - 1).

Definition in_range (w : Z) (z : Z) : Prop :=
  - 2 ^ (w - 1) ≤ z < 2 ^ (w - 1).

(** ** The [RecoEvent] table description (lines 95-118) *)

Inductive coltype := Int16Col | Int32Col | Float32Col | BoolCol.

Inductive cell :=
| VInt (z : Z)
| VFloat (f : float)
| VBool (b : bool).

Module RecoEvent.
Inductive column :=
  | obs_id | event_id
  | NTels_trig | NTels_reco | NTels_reco_lst | NTels_reco_mst | NTels_reco_sst
  | mc_energy | reco_energy | reco_alt | reco_az | offset | xi
  | ErrEstPos | ErrEstDir | gammaness | success | score | h_max
  | reco_core_x | reco_core_y | mc_core_x | mc_core_y.

#[global] Instance column_eq_dec : EqDecision column.
Proof. solve_decision. Defined.

Definition pos (c : column) : nat :=
    match c with
    | obs_id => 0 | event_id => 1
    | NTels_trig => 2 | NTels_reco => 3 | NTels_reco_lst => 4
    | NTels_reco_mst => 5 | NTels_reco_sst => 6
    | mc_energy => 7 | reco_energy => 8 | reco_alt => 9 | reco_az => 10
    | offset => 11 | xi => 12 | ErrEstPos => 13 | ErrEstDir => 14
    | gammaness => 15 | success => 16 | score => 17 | h_max => 18
    | reco_core_x => 19 | reco_core_y => 20 | mc_core_x => 21 | mc_core_y => 22
    end%nat.

Definition ctype (c : column) : coltype :=
    match c with
    | obs_id => Int16Col
    | event_id => Int32Col
    | NTels_trig | NTels_reco | NTels_reco_lst | NTels_reco_mst
    | NTels_reco_sst => Int16Col
    | success => BoolCol
    | _ => Float32Col
    end.

Definition dflt (c : column) : cell :=
    match c with
    | obs_id | event_id => VInt (-1)
    | NTels_trig | NTels_reco | NTels_reco_lst | NTels_reco_mst
    | NTels_reco_sst => VInt 0
    | success => VBool false
    | _ => VFloat F64.nan
    end.

  (** The columns in [pos] order. *)
Definition columns : list column :=
    [ obs_id; event_id; NTels_trig; NTels_reco; NTels_reco_lst;
      NTels_reco_mst; NTels_reco_sst; mc_energy; reco_energy; reco_alt;
      reco_az; offset; xi; ErrEstPos; ErrEstDir; gammaness; success; score;
      h_max; reco_core_x; reco_core_y; mc_core_x; mc_core_y ].
End RecoEvent.

(** What a cell of the given type keeps of an assigned value.  [main] only
    assigns integers to integer columns, floats to float columns and
    booleans to the boolean column. *)
Definition store (ty : coltype) (v : cell) : cell :=
  match ty, v with
  | Int16Col, VInt z => VInt (wrap 16 z)
  | Int32Col, VInt z => VInt (wrap 32 z)
  | Float32Col, VFloat f => VFloat (F32.of_f64 f)
  | _, _ => v
  end.

(** [reco_table.row]: one private record, addressed by column. *)
Module TRow.
Abbreviation t := (list cell).

Definition defaults : t := RecoEvent.dflt <$> RecoEvent.columns.

  (** [row[c] = v] *)
Definition setitem (c : RecoEvent.column) (v : cell) (r : t) : t :=
    <[RecoEvent.pos c := store (RecoEvent.ctype c) v]> r.

  (** [row[c]] *)
Definition getitem (c : RecoEvent.column) (r : t) : option cell :=
    r !! RecoEvent.pos c.
End TRow.

(** ** Events as the event preparer yields them *)

(** An astropy quantity: a number and the unit it is expressed in. *)
Module Quantity.
Record t := { value : float; unit : string }.
End Quantity.
Abbreviation Quantity := Quantity.t.

Module Hillas.
Record t := {
  intensity : float;
  width : Quantity;
  length : Quantity;
  skewness : float;
  kurtosis : float
}.
End Hillas.

(** [event.mc] *)
Record McShower := {
  mc_energy : Quantity;
  mc_az : Quantity;
  mc_alt : Quantity;
  mc_core_x : Quantity;
  mc_core_y : Quantity
}.

(** [reco_result] *)
Record RecoResult := {
  az : Quantity;
  alt : Quantity;
  h_max : Quantity;
  core_x : Quantity;
  core_y : Quantity
}.

(** [n_tels] *)
Record NTels := { LST : Z; MST : Z; SST : Z }.

(** One item of [preper.prepare_event(source)], with the parts of the
    event container that [main] reads.  [hillas_dict] is a Python dict: its
    entries in insertion order, one per telescope id.  [hillas_dict] and
    [reco_result] are [None] or an object, independently of each other:
    [main] tests the first (line 166) and reads the attributes of the
    second without a test (lines 152-164). *)
Record PreparedEvent := {
  r1_obs_id : Z;
  r1_event_id : Z;
  dl0_tels_with_data : list nat;
  run_array_direction : Quantity * Quantity;
  mc : McShower;
  subarray_tel : gmap nat string;
  hillas_dict : option (list (nat * Hillas.t));
  n_tels : NTels;
  reco_result : option RecoResult;
  impact_dict : gmap nat Quantity
}.

(** ** Exceptions, observable actions and the two monads *)

(** The exceptions of a run: a failed dict subscript or keyword lookup, the
    errors of [str.format], an attribute read on [None], the division that
    the cut-flow report may attempt, the read of an unbound local,
    [sys.exit], a model file that cannot be read, and whatever a model of
    the bank raises on a feature vector it does not accept. *)
Inductive exn :=
| KeyError
| IndexError
| ValueError
| AttributeError
| ZeroDivisionError
| UnboundLocalError
| SystemExit (code : Z)
| FileNotFoundError
| ModelError.

Inductive res (A : Type) :=
| Ok (a : A)
| Raise (e : exn).
Arguments Ok {A} a.
Arguments Raise {A} e.

(** The loop in which the handler flag is read: the event loop (line 249)
    or the file loop (line 251). *)
Inductive level := Inner | Outer.

(** What [main] does that can be observed from outside, in order. *)
Inductive action :=
| APrint (msg : string)
| ALoad (path : string)
| AOpenFile (filename : string) (in_memory : bool)
| ACreateTable
| ASource (filename : string)
| AYield (ev : PreparedEvent)
| APredict (cam_id : string) (features : list float)
| ADecision (cam_id : string) (features : list float)
| AFlush
| AAppend (r : TRow.t)
| AInspect (lvl : level) (seen : bool)
| ACutFlow (name : string).

(** Calls into the model bank: a result or an exception, and the calls made. *)
Definition W (A : Type) : Type := res A * list action.

#[global] Instance W_ret : MRet W := λ A a, (Ok a, []).
#[global] Instance W_bind : MBind W := λ A B k c,
  match c with
  | (Ok a, l) => let '(r, l') := k a in (r, l ++ l')
  | (Raise e, l) => (Raise e, l)
  end.

Definition wraise {A} (e : exn) : W A := (Raise e, []).

(** [d[k]] on a dict. *)
Definition subscript `{Countable K} {V} (d : gmap K V) (k : K) : W V :=
  match d !! k with
  | Some v => mret v
  | None => wraise KeyError
  end.

(** An attribute read on an object that may be [None]. *)
Definition attributes {A} (o : option A) : W A :=
  match o with
  | Some a => mret a
  | None => wraise AttributeError
  end.

(** The table, the handler flag and the log of what the program did. *)
Record state := {
  log : list action;
  wrec : TRow.t;
  iobuf : list TRow.t;
  disk : list TRow.t;
  stop : bool;
  tick : nat
}.

Definition M (A : Type) : Type := state → res A * state.

#[global] Instance M_ret : MRet M := λ A a s, (Ok a, s).
#[global] Instance M_bind : MBind M := λ A B k c s,
  match c s with
  | (Ok a, s') => k a s'
  | (Raise e, s') => (Raise e, s')
  end.

Definition raise {A} (e : exn) : M A := λ s, (Raise e, s).

Definition emit (l : list action) (s : state) : state :=
  {| log := log s ++ l; wrec := wrec s; iobuf := iobuf s; disk := disk s;
     stop := stop s; tick := tick s |}.

Definition lift {A} (c : W A) : M A := λ s, (c.1, emit c.2 s).

Definition print (msg : string) : M unit := λ s, (Ok (), emit [APrint msg] s).

(** [try: c except E: pass] for the exceptions [E] that [caught] accepts. *)
Definition try_except (c : M unit) (caught : exn → bool) : M unit := λ s,
  match c s with
  | (Raise e, s') => if caught e then (Ok (), s') else (Raise e, s')
  | (Ok a, s') => (Ok a, s')
  end.

Definition is_ZeroDivisionError (e : exn) : bool :=
  match e with ZeroDivisionError => true | _ => false end.

Definition setitem (c : RecoEvent.column) (v : cell) : M unit := λ s,
  (Ok (), {| log := log s; wrec := TRow.setitem c v (wrec s); iobuf := iobuf s;
             disk := disk s; stop := stop s; tick := tick s |}).

(** [reco_outfile.create_table(...)] and [reco_table.row]: an empty table
    and a private record holding the column defaults. *)
Definition create_table : M unit := λ s,
  (Ok (), {| log := log s ++ [ACreateTable]; wrec := TRow.defaults; iobuf := [];
             disk := []; stop := stop s; tick := tick s |}).

(** [reco_table.flush()]: the buffered rows go to storage.  (The buffer
    holds far more than one row, so the flush that [append] itself performs
    on a full buffer never happens in a loop that flushes at every turn.) *)
Definition flush : M unit := λ s,
  (Ok (), {| log := log s ++ [AFlush]; wrec := wrec s; iobuf := [];
             disk := disk s ++ iobuf s; stop := stop s; tick := tick s |}).

(** [reco_event.append()]: the private record is copied to the end of the
    I/O buffer and is reset to the column defaults. *)
Definition append : M unit := λ s,
  (Ok (), {| log := log s ++ [AAppend (wrec s)]; wrec := TRow.defaults;
             iobuf := iobuf s ++ [wrec s]; disk := disk s; stop := stop s;
             tick := tick s |}).

(** Every row appended so far, flushed or not. *)
Definition table (s : state) : list TRow.t := disk s ++ iobuf s.

(** The builtin [sum] of a float64 array: it starts from the integer 0 and
    adds the numbers one after the other, in double precision. *)
Definition py_sum (a : list float) : float := foldl F64.add F64.zero a.

(** [numpy.sum] of a float64 array adds in another order.  The reduction
    starts from the identity 0.0 and adds to it the result of numpy's
    pairwise summation of the whole array: fewer than 8 numbers are added
    one after the other; up to 128 numbers are added into 8 running sums,
    the number at index [i] into sum [i mod 8] as long as whole groups of 8
    remain, the 8 sums are added as a balanced tree and the remaining
    numbers one after the other; a longer array is cut in two, the first
    part half as long rounded down to a multiple of 8, and the sums of the
    two parts are added. *)
Definition acc8 : Type :=
  float * float * float * float * float * float * float * float.

Definition add8 (r b : acc8) : acc8 :=
  let '(r0, r1, r2, r3, r4, r5, r6, r7) := r in
  let '(b0, b1, b2, b3, b4, b5, b6, b7) := b in
  (F64.add r0 b0, F64.add r1 b1, F64.add r2 b2, F64.add r3 b3,
   F64.add r4 b4, F64.add r5 b5, F64.add r6 b6, F64.add r7 b7).

Definition sum8 (r : acc8) : float :=
  let '(r0, r1, r2, r3, r4, r5, r6, r7) := r in
  F64.add (F64.add (F64.add r0 r1) (F64.add r2 r3))
          (F64.add (F64.add r4 r5) (F64.add r6 r7)).

(** One of the 8 running sums is NaN. *)
Definition has_nan8 (r : acc8) : Prop :=
  let '(r0, r1, r2, r3, r4, r5, r6, r7) := r in
  F64.nan ∈ [r0; r1; r2; r3; r4; r5; r6; r7].

(** The loop over the whole groups of 8: the running sums and what is left. *)
Fixpoint unrolled (r : acc8) (a : list float) {struct a} : acc8 * list float :=
  match a with
  | a0 :: a1 :: a2 :: a3 :: a4 :: a5 :: a6 :: a7 :: rest =>
    unrolled (add8 r (a0, a1, a2, a3, a4, a5, a6, a7)) rest
  | _ => (r, a)
  end.

(** At most 128 numbers. *)
Definition block_sum (a : list float) : float :=
  match a with
  | a0 :: a1 :: a2 :: a3 :: a4 :: a5 :: a6 :: a7 :: rest =>
    let '(r, rest') := unrolled (a0, a1, a2, a3, a4, a5, a6, a7) rest in
    foldl F64.add (sum8 r) rest'
  | _ => foldl F64.add F64.zero a
  end.

(** [fuel] bounds the depth of the recursion; the length of the array is
    more than enough (lemma [pairwise_sum_unfold]). *)
Fixpoint pairwise_sum (fuel : nat) (a : list float) : float :=
  match fuel with
  | S fuel' =>
    if (128 <? length a)%nat then
      let n2 := (length a / 2 - (length a / 2) mod 8)%nat in
      F64.add (pairwise_sum fuel' (take n2 a)) (pairwise_sum fuel' (drop n2 a))
    else block_sum a
  | O => block_sum a
  end.

Definition np_sum (a : list float) : float :=
  F64.add F64.zero (pairwise_sum (length a) a).

(** Lines 187 and 208: [np.sum(weight_tel * value_tel) / sum(weight_tel)].
    Dividing numpy doubles raises nothing. *)
Definition weighted_mean (weight_tel value_tel : list float) : float :=
  F64.div (np_sum (zip_with F64.mul weight_tel value_tel)) (py_sum weight_tel).

Definition weights (hd : list (nat * Hillas.t)) : list float :=
  (λ kv, Hillas.intensity kv.2) <$> hd.

(** The command-line arguments that [main] reads from line 47 on. *)
Record Args := {
  indir : string;
  infile_list : option (list string);
  outfile : option string;
  mode : string;
  force_tailcut_for_extended_cleaning : bool;
  classifier_dir : string;
  regressor_dir : string
}.

(** Python truth value of [args.infile_list]. *)
Definition truthy (l : option (list string)) : bool :=
  match l with
  | Some (_ :: _) => true
  | _ => false
  end.

(** Exit status of the process for the way [main] ended. *)
Definition exit_status (r : res ()) : Z :=
  match r with
  | Ok _ => 0
  | Raise (SystemExit code) => code mod 256
  | Raise _ => 1
  end.

(** ** The model files (lines 47-49 and 72-86)

    Python's [str.format] with keyword arguments only, on templates whose
    replacement fields are plain names: text is copied, [{{] and [}}] stand
    for one brace, [{name}] is replaced by the value of [name], which is not
    scanned again; the template is read from left to right and the first
    error ends the call.  A field with an attribute, an index, a conversion
    or a format specification, or with a character outside ASCII, is outside
    this model: [FmtUnsupported]. *)
Inductive formatted :=
| FmtOk (s : string)
| FmtKeyError (name : string)
| FmtIndexError
| FmtValueError
| FmtUnsupported.

Definition fmt_prepend (p : string) (r : formatted) : formatted :=
  match r with
  | FmtOk s => FmtOk (p +:+ s)
  | _ => r
  end.

Definition is_digit (c : Ascii.ascii) : bool :=
  (48 <=? Z.of_nat (Ascii.nat_of_ascii c))
  && (Z.of_nat (Ascii.nat_of_ascii c) <=? 57).

Fixpoint all_digits (s : string) : bool :=
  match s with
  | EmptyString => true
  | String c s' => is_digit c && all_digits s'
  end.

Fixpoint kw_lookup (kw : list (string * string)) (name : string)
  : option string :=
  match kw with
  | [] => None
  | (k, v) :: kw' => if decide (k = name) then Some v else kw_lookup kw' name
  end.

(** The number that a string of digits denotes. *)
Fixpoint decimal (acc : Z) (s : string) : Z :=
  match s with
  | EmptyString => acc
  | String c s' => decimal (10 * acc + (Z.of_nat (Ascii.nat_of_ascii c) - 48)) s'
  end.

(** The largest index [str.format] accepts (a 64-bit [Py_ssize_t]). *)
Definition PY_SSIZE_T_MAX : Z := 2 ^ 63 - 1.

(** The value of a replacement field: an empty or numeric name asks for a
    positional argument, and there is none; a number beyond
    [PY_SSIZE_T_MAX] is refused before that. *)
Definition field_value (kw : list (string * string)) (name : string)
  : formatted :=
  if all_digits name then
    if PY_SSIZE_T_MAX <? decimal 0 name then FmtValueError else FmtIndexError
  else match kw_lookup kw name with
       | Some v => FmtOk v
       | None => FmtKeyError name
       end.

(** [field] is [None] in running text and holds the name read so far inside
    a replacement field. *)
Fixpoint format_go (kw : list (string * string)) (field : option string)
  (s : string) {struct s} : formatted :=
  match field, s with
  | None, EmptyString => FmtOk ""
  | None, String c s' =>
    if decide (c = "{"%char) then
      match s' with
      | String c' s'' =>
        if decide (c' = "{"%char) then fmt_prepend "{" (format_go kw None s'')
        else format_go kw (Some "") s'
      | EmptyString => FmtValueError
      end
    else if decide (c = "}"%char) then
      match s' with
      | String c' s'' =>
        if decide (c' = "}"%char) then fmt_prepend "}" (format_go kw None s'')
        else FmtValueError
      | EmptyString => FmtValueError
      end
    else fmt_prepend (String c "") (format_go kw None s')
  | Some name, EmptyString => FmtValueError
  | Some name, String c s' =>
    if decide (c = "}"%char) then
      match field_value kw name with
      | FmtOk v => fmt_prepend v (format_go kw None s')
      | err => err
      end
    else if decide (c = "{"%char) then FmtValueError
    else if decide (c = "."%char ∨ c = "["%char ∨ c = "!"%char ∨ c = ":"%char
                    ∨ (128 ≤ Ascii.nat_of_ascii c)%nat)
    then FmtUnsupported
    else format_go kw (Some (name +:+ String c "")) s'
  end.

(** [template.format] called with the keyword arguments [kw]. *)
Definition format (template : string) (kw : list (string * string))
  : formatted :=
  format_go kw None template.

Fixpoint brace_free (s : string) : bool :=
  match s with
  | EmptyString => true
  | String c s' =>
    negb (bool_decide (c = "{"%char)) && negb (bool_decide (c = "}"%char))
    && brace_free s'
  end.

(** Lines 47-49. *)
Definition force_mode (a : Args) : string :=
  if force_tailcut_for_extended_cleaning a then "tail" else mode a.

(** Lines 72-78: [classifier_files] and [clf_file], with the keyword
    arguments of the call. *)
Definition classifier_files (a : Args) : string :=
  classifier_dir a +:+ "/classifier_{mode}_{cam_id}_{classifier}.pkl.gz".

Definition clf_kwargs (a : Args) : list (string * string) :=
  [ ("mode", force_mode a); ("wave_args", "mixed");
    ("classifier", "AdaBoostClassifier"); ("cam_id", "{cam_id}") ].

Definition clf_file (a : Args) : formatted :=
  format (classifier_files a) (clf_kwargs a).

(** Lines 81-86: [regressor_files] and [reg_file]. *)
Definition regressor_files (a : Args) : string :=
  regressor_dir a +:+ "/regressor_{mode}_{cam_id}_{regressor}.pkl.gz".

Definition reg_kwargs (a : Args) : list (string * string) :=
  [ ("mode", force_mode a); ("wave_args", "mixed");
    ("regressor", "AdaBoostRegressor"); ("cam_id", "{cam_id}") ].

Definition reg_file (a : Args) : formatted :=
  format (regressor_files a) (reg_kwargs a).

(** Lines 121-127: the file name and whether the file lives in memory only
    ([H5FD_CORE] without backing store), by the truth value of
    [args.outfile]. *)
Definition reco_outfile (a : Args) : string * bool :=
  match outfile a with
  | Some (String c f) => (String c f, false)
  | _ => ("no_outfile.h5", true)
  end.

(** ** Sample inputs

    Two input files with three events, a model bank for one camera type,
    and stand-ins for the numeric collaborators (the runs below do not
    depend on their values). *)
Module Sample.
Definition q (z : Z) (u : string) : Quantity :=
  {| Quantity.value := F64.of_Z z; Quantity.unit := u |}.

(** The double nearest to 0.1. *)
Definition tenth : float := F64.div (F64.of_Z 1) (F64.of_Z 10).

Definition moments (w : Z) : Hillas.t :=
  {| Hillas.intensity := F64.of_Z w; Hillas.width := q 1 "m";
     Hillas.length := q 2 "m"; Hillas.skewness := F64.zero;
     Hillas.kurtosis := F64.of_Z 3 |}.

Definition model (y : float) : list float → res float := λ _, Ok y.

Definition regressor : gmap string (list float → res float) :=
  {[ "LSTCam" := model tenth ]}.

Definition classifier : gmap string (list float → res float) :=
  {[ "LSTCam" := model (F64.of_Z 1) ]}.

Definition shower (h : Z) : RecoResult :=
  {| az := q 0 "rad"; alt := q 1 "rad"; h_max := q h "m";
     core_x := q 1 "m"; core_y := q 2 "m" |}.

Definition event (i : Z) (hd : option (list (nat * Hillas.t))) : PreparedEvent :=
  {| r1_obs_id := 70000; r1_event_id := i;
     dl0_tels_with_data := [1; 2]%nat;
     run_array_direction := (q 0 "rad", q 1 "rad");
     mc := {| mc_energy := q 1 "TeV"; mc_az := q 0 "rad"; mc_alt := q 1 "rad";
              mc_core_x := q 5 "m"; mc_core_y := q 6 "m" |};
     subarray_tel := {[ 1%nat := "LSTCam"; 2%nat := "FlashCam" ]};
     hillas_dict := hd;
     n_tels := {| LST := 1; MST := 0; SST := 0 |};
     reco_result := Some (shower 9000);
     impact_dict := {[ 1%nat := q 100 "m"; 2%nat := q 100 "m" ]} |}.

(** One telescope with intensity 3; no Hillas moments; an empty dict; one
    telescope whose camera type has no model; neither Hillas moments nor a
    geometric fit. *)
Definition single : PreparedEvent := event 1 (Some [(1%nat, moments 3)]).
Definition missing : PreparedEvent := event 2 None.
Definition empty : PreparedEvent := event 3 (Some []).
Definition unknown_cam : PreparedEvent := event 4 (Some [(2%nat, moments 3)]).
Definition no_fit : PreparedEvent :=
  {| r1_obs_id := 70000; r1_event_id := 6;
     dl0_tels_with_data := dl0_tels_with_data missing;
     run_array_direction := run_array_direction missing;
     mc := mc missing;
     subarray_tel := subarray_tel missing;
     hillas_dict := None;
     n_tels := n_tels missing;
     reco_result := None;
     impact_dict := impact_dict missing |}.

(** An event with small identifiers. *)
Definition small_ids : PreparedEvent :=
  {| r1_obs_id := 7; r1_event_id := 12;
     dl0_tels_with_data := dl0_tels_with_data missing;
     run_array_direction := run_array_direction missing;
     mc := mc missing;
     subarray_tel := subarray_tel missing;
     hillas_dict := None;
     n_tels := n_tels missing;
     reco_result := reco_result missing;
     impact_dict := impact_dict missing |}.

Definition log10 (x : float) : float := x.
Definition angular_separation (lon1 lat1 lon2 lat2 : Quantity) : Quantity :=
  q 0 "rad".
Definition to_value (u : string) (x : Quantity) : float := Quantity.value x.

Definition glob (pattern : string) : list string :=
  if decide (pattern = "in/*.gz") then ["in/b.gz"; "in/a.gz"]
  else if decide (pattern = "in/c.gz") then ["in/c.gz"]
  else if decide (pattern = "in/d.gz") then ["in/d.gz"]
  else if decide (pattern = "in/e.gz") then ["in/e.gz"]
  else [].

Definition events_of (filename : string) : list PreparedEvent :=
  if decide (filename = "in/a.gz") then [single; missing]
  else if decide (filename = "in/b.gz") then [empty]
  else if decide (filename = "in/c.gz") then [unknown_cam]
  else if decide (filename = "in/d.gz") then [single; no_fit]
  else if decide (filename = "in/e.gz") then [small_ids]
  else [].

Definition no_sigint (k : nat) : bool := false.
(** An interrupt arriving while the second event is processed. *)
Definition sigint_once (k : nat) : bool := bool_decide (k = 1%nat).

(** Every model file can be read but those of the directory [nowhere];
    every output file can be opened; the event counter reports, the image
    counter divides by zero. *)
Definition format_other (template : string) (kw : list (string * string))
  : res string := Raise ValueError.
Definition load_error (path : string) : option exn :=
  if String.prefix "nowhere/" path then Some FileNotFoundError else None.
Definition open_error (filename : string) : option exn := None.
Definition cutflow_zero_division (name : string) : bool :=
  bool_decide (name = "ImageCutFlow").

Definition run_on (patterns : option (list string)) : Args :=
  {| indir := "in"; infile_list := patterns; outfile := None;
     mode := "tail"; force_tailcut_for_extended_cleaning := false;
     classifier_dir := "models"; regressor_dir := "models" |}.

Definition args : Args := run_on (Some ["*.gz"]).
Definition args_c : Args := run_on (Some ["c.gz"]).
Definition no_args : Args := run_on None.
End Sample.

(** Further sample inputs. *)
Module SampleFiles.
Definition wide : Args :=
  {| indir := "in"; infile_list := Some ["*.gz"]; outfile := Some "dl2.h5";
     mode := "wave"; force_tailcut_for_extended_cleaning := true;
     classifier_dir := "models/clf"; regressor_dir := "models/reg" |}.

(** A classifier directory with a closing brace in its name. *)
Definition braced : Args :=
  {| indir := "in"; infile_list := Some ["*.gz"]; outfile := None;
     mode := "tail"; force_tailcut_for_extended_cleaning := false;
     classifier_dir := "out}"; regressor_dir := "models/reg" |}.

(** Two patterns that match the same file. *)
Definition twice : Args := Sample.run_on (Some ["c.gz"; "c.gz"]).


(** The file of the event with small identifiers. *)
Definition small_file : Args := Sample.run_on (Some ["e.gz"]).

(** All three sample files: the last event read has no model. *)
Definition all_files : Args := Sample.run_on (Some ["*.gz"; "c.gz"]).

(** An event whose only telescope is unknown to the subarray. *)
Definition stray : PreparedEvent :=
  Sample.event 5 (Some [(3%nat, Sample.moments 3)]).

(** A bank that knows both camera types of the sample events. *)
Definition both : gmap string (list float → res float) :=
  {[ "LSTCam" := Sample.model Sample.tenth;
     "FlashCam" := Sample.model F64.nan ]}.
End SampleFiles.

Arguments wrap : simpl never.
Arguments F32.of_f64 : simpl never.
Arguments weighted_mean : simpl never.

(** The state in which [main] starts, and a state holding nothing but a
    private record at its defaults, as [create_table] and [append] leave it. *)
Definition init : state :=
  {| log := []; wrec := []; iobuf := []; disk := []; stop := false; tick := 0 |}.

Definition fresh : state :=
  {| log := []; wrec := TRow.defaults; iobuf := []; disk := []; stop := false;
     tick := 0 |}.

(** The state in which the file loop starts, [l] being what lines 51-133
    logged. *)
Definition loaded (l : list action) : state :=
  {| log := l; wrec := TRow.defaults; iobuf := []; disk := []; stop := false;
     tick := 0 |}.

(** The events whose processing began, in the order of the log. *)
Definition yielded (l : list action) : list PreparedEvent :=
  omap (λ a, match a with AYield ev => Some ev | _ => None end) l.

Definition is_predict (a : action) : Prop :=
  match a with APredict _ _ => True | _ => False end.

(** A classifier call whose feature vector starts with [x]. *)
Definition is_decision_on (x : float) (a : action) : Prop :=
  match a with ADecision _ (y :: _) => y = x | _ => False end.

Definition is_call (a : action) : Prop :=
  match a with APredict _ _ | ADecision _ _ => True | _ => False end.

(** A reading of the handler flag that found it set. *)
Definition is_seen (a : action) : Prop :=
  match a with AInspect _ true => True | _ => False end.

(** No reading of the flag in [l] found it set. *)
Definition unseen (l : list action) : Prop := Forall (λ a, ¬ is_seen a) l.

(** What [main] does before the loops, and what the loops do. *)
Definition is_startup (a : action) : Prop :=
  match a with
  | APrint _ | ALoad _ | AOpenFile _ _ | ACreateTable => True
  | _ => False
  end.


(** What [main] still does once it has left the loops. *)
Definition is_wrapup (a : action) : Prop :=
  match a with
  | AInspect Outer true | AFlush | APrint _ | ACutFlow _ => True
  | _ => False
  end.

(** Every reading of the flag in the inner loop comes right after an
    [append]; every reading in the outer loop comes right after the inner
    loop ended (its last reading, or the opening of a file without events). *)
Fixpoint placed (prev : option action) (l : list action) : Prop :=
  match l with
  | [] => True
  | a :: l' =>
    match a with
    | AInspect Inner _ => ∃ r, prev = Some (AAppend r)
    | AInspect Outer _ =>
      (∃ b, prev = Some (AInspect Inner b)) ∨ (∃ f, prev = Some (ASource f))
    | _ => True
    end ∧ placed (Some a) l'
  end.

Section Program.

(** The collaborators of [main]: numpy's [log10], astropy's
    [angular_separation] and unit conversion [q.to(u).value], the two model
    banks that [EnergyRegressor.load] returns when it returns ([model_dict],
    with [predict] resp. [decision_function]), the file system seen through
    [glob], and the events the preparer yields for an input file. *)
Variable log10 : float → float.
Variable angular_separation : Quantity → Quantity → Quantity → Quantity → Quantity.
Variable to_value : string → Quantity → float.
Variable regressor : gmap string (list float → res float).
Variable classifier : gmap string (list float → res float).
Variable glob : string → list string.
Variable events_of : string → list PreparedEvent.

(** What is left to the environment: the outcome of [str.format] on a
    template outside the model above, the exception with which
    [EnergyRegressor.load] fails on a path and [tb.open_file] on a file
    name, if they fail, and whether the report of a cut-flow counter
    divides by zero. *)
Variable format_other : string → list (string * string) → res string.
Variable load_error : string → option exn.
Variable open_error : string → option exn.
Variable cutflow_zero_division : string → bool.

(** Modelled from the spec: [SignalHandler] of [protopipe.pipeline.utils],
    an interrupt delivered asynchronously sets the flag [stop], which is
    never reset.  [sigint k] tells whether an interrupt arrived between the
    previous reading of the flag and reading number [k]. *)
Variable sigint : nat → bool.

(** [signal_handler.stop], read at lines 249 and 251. *)
Definition inspect (lvl : level) : M bool := λ s,
  let seen := stop s || sigint (tick s) in
  (Ok seen, {| log := log s ++ [AInspect lvl seen]; wrec := wrec s;
               iobuf := iobuf s; disk := disk s; stop := seen;
               tick := S (tick s) |}).

(** Lines 177-183. *)
Definition energy_features (moments : Hillas.t) (impact h_max : Quantity)
  : list float :=
  [ log10 (Hillas.intensity moments);
    log10 (Quantity.value impact);
    Quantity.value (Hillas.width moments);
    Quantity.value (Hillas.length moments);
    Quantity.value h_max ].

(** Lines 197-204. *)
Definition score_features (reco_energy : float) (moments : Hillas.t)
  (h_max : Quantity) : list float :=
  [ log10 reco_energy;
    Quantity.value (Hillas.width moments);
    Quantity.value (Hillas.length moments);
    Hillas.skewness moments;
    Hillas.kurtosis moments;
    Quantity.value h_max ].

Definition predict (cam_id : string) (model : list float → res float)
  (features : list float) : W float :=
  (model features, [APredict cam_id features]).

Definition decision_function (cam_id : string) (model : list float → res float)
  (features : list float) : W float :=
  (model features, [ADecision cam_id features]).

(** Lines 172-185: one energy estimate per telescope of [hillas_dict]. *)
Definition energy_loop (ev : PreparedEvent) (hd : list (nat * Hillas.t))
  (h_max : Quantity) : W (list float) :=
  mapM (λ '(tel_id, moments),
    cam_id ← subscript (subarray_tel ev) tel_id;
    model ← subscript regressor cam_id;
    impact ← subscript (impact_dict ev) tel_id;
    predict cam_id model (energy_features moments impact h_max)) hd.

(** Lines 193-206: one score per telescope of [hillas_dict]. *)
Definition score_loop (ev : PreparedEvent) (hd : list (nat * Hillas.t))
  (reco_energy : float) (h_max : Quantity) : W (list float) :=
  mapM (λ '(tel_id, moments),
    cam_id ← subscript (subarray_tel ev) tel_id;
    model ← subscript classifier cam_id;
    decision_function cam_id model (score_features reco_energy moments h_max)) hd.

(** Lines 146-247: the body of the event loop. *)
Definition body (ev : PreparedEvent) : M unit :=
  reco ← lift (attributes (reco_result ev));
  let xi := angular_separation (mc_az (mc ev)) (mc_alt (mc ev)) (az reco) (alt reco) in
  let offset :=
    angular_separation (run_array_direction ev).1 (run_array_direction ev).2
      (az reco) (alt reco) in
  let h_max := h_max reco in
  match hillas_dict ev with
  | Some hd =>
    energy_tel ← lift (energy_loop ev hd h_max);
    let weight_tel := weights hd in
    let reco_energy := weighted_mean weight_tel energy_tel in
    score_tel ← lift (score_loop ev hd reco_energy h_max);
    let weight_tel := weights hd in
    let score := weighted_mean weight_tel score_tel in
    setitem RecoEvent.NTels_trig (VInt (Z.of_nat (length (dl0_tels_with_data ev))));;
    setitem RecoEvent.NTels_reco (VInt (Z.of_nat (length hd)));;
    setitem RecoEvent.NTels_reco_lst (VInt (LST (n_tels ev)));;
    setitem RecoEvent.NTels_reco_mst (VInt (MST (n_tels ev)));;
    setitem RecoEvent.NTels_reco_sst (VInt (SST (n_tels ev)));;
    setitem RecoEvent.reco_energy (VFloat reco_energy);;
    setitem RecoEvent.reco_alt (VFloat (to_value "deg" (alt reco)));;
    setitem RecoEvent.reco_az (VFloat (to_value "deg" (az reco)));;
    setitem RecoEvent.offset (VFloat (to_value "deg" offset));;
    setitem RecoEvent.xi (VFloat (to_value "deg" xi));;
    setitem RecoEvent.h_max (VFloat (to_value "m" h_max));;
    setitem RecoEvent.reco_core_x (VFloat (to_value "m" (core_x reco)));;
    setitem RecoEvent.reco_core_y (VFloat (to_value "m" (core_y reco)));;
    setitem RecoEvent.mc_core_x (VFloat (to_value "m" (mc_core_x (mc ev))));;
    setitem RecoEvent.mc_core_y (VFloat (to_value "m" (mc_core_y (mc ev))));;
    setitem RecoEvent.score (VFloat score);;
    setitem RecoEvent.success (VBool true);;
    setitem RecoEvent.ErrEstPos (VFloat F64.nan);;
    setitem RecoEvent.ErrEstDir (VFloat F64.nan)
  | None =>
    setitem RecoEvent.success (VBool false)
  end;;
  setitem RecoEvent.mc_energy (VFloat (to_value "TeV" (mc_energy (mc ev))));;
  setitem RecoEvent.event_id (VInt (r1_event_id ev));;
  setitem RecoEvent.obs_id (VInt (r1_obs_id ev));;
  flush;;
  append.

(** Lines 142-250: the events of one input file, until the flag is seen. *)
Fixpoint event_loop (evs : list PreparedEvent) : M unit :=
  match evs with
  | [] => mret ()
  | ev :: evs' =>
    lift (Ok (), [AYield ev]);;
    body ev;;
    seen ← inspect Inner;
    if (seen : bool) then mret () else event_loop evs'
  end.

(** Lines 134-252: the input files, until the flag is seen. *)
Fixpoint file_loop (filenamelist : list string) : M unit :=
  match filenamelist with
  | [] => mret ()
  | filename :: rest =>
    lift (Ok (), [ASource filename]);;
    event_loop (events_of filename);;
    seen ← inspect Outer;
    if (seen : bool) then mret () else file_loop rest
  end.

(** Lines 51-55: the sorted matches of every pattern, when the argument is
    given; the local variable stays unbound otherwise.  [list.sort] orders
    file names as [String.le] does, character by character. *)
Definition filenames (args : Args) : option (list string) :=
  if truthy (infile_list args)
  then Some (merge_sort String.le
               (flat_map (λ f, glob (indir args +:+ "/" +:+ f))
                         (default [] (infile_list args))))
  else None.

(** [template.format] with the keyword arguments [kw], as a call. *)
Definition str_format (template : string) (kw : list (string * string))
  : W string :=
  match format template kw with
  | FmtOk s => mret s
  | FmtKeyError _ => wraise KeyError
  | FmtIndexError => wraise IndexError
  | FmtValueError => wraise ValueError
  | FmtUnsupported => (format_other template kw, [])
  end.

(** [EnergyRegressor.load(path, ...)], [tb.open_file(...)] and the call of
    a cut-flow counter: the call is logged, then it returns or raises. *)
Definition load (path : string) : W unit :=
  (match load_error path with Some e => Raise e | None => Ok () end,
   [ALoad path]).

Definition open_file (args : Args) : W unit :=
  (match open_error (reco_outfile args).1 with
   | Some e => Raise e
   | None => Ok ()
   end,
   [AOpenFile (reco_outfile args).1 (reco_outfile args).2]).

Definition cutflow (name : string) : W unit :=
  (if cutflow_zero_division name then Raise ZeroDivisionError else Ok (),
   [ACutFlow name]).

(** [main], from line 51 on: the guard on the input files, the two model
    files, the table, the loops, the last flush and the report. *)
Definition main (args : Args) : M unit :=
  filenamelist ← match filenames args return M (list string) with
                 | Some l => mret l
                 | None => raise UnboundLocalError
                 end;
  (if bool_decide (filenamelist = [])
   then print ("no files found; check indir: " +:+ indir args);;
        raise (SystemExit (-1))
   else mret ());;
  clf_file ← lift (str_format (classifier_files args) (clf_kwargs args));
  lift (load clf_file);;
  reg_file ← lift (str_format (regressor_files args) (reg_kwargs args));
  lift (load reg_file);;
  lift (open_file args);;
  create_table;;
  file_loop filenamelist;;
  flush;;
  try_except
    (print "";;
     lift (cutflow "EventCutFlow");;
     print "";;
     lift (cutflow "ImageCutFlow"))
    is_ZeroDivisionError;;
  print "Job done!".

(** ** Derived notions *)

(** The record of an event without Hillas moments (lines 239-244), and of
    an event whose fusion gave [reco_energy] and [score] (lines 219-244):
    the assignments of [body], on a private record at its defaults. *)
Definition failure_row (ev : PreparedEvent) : TRow.t :=
  TRow.setitem RecoEvent.obs_id (VInt (r1_obs_id ev))
  (TRow.setitem RecoEvent.event_id (VInt (r1_event_id ev))
  (TRow.setitem RecoEvent.mc_energy (VFloat (to_value "TeV" (mc_energy (mc ev))))
  (TRow.setitem RecoEvent.success (VBool false) TRow.defaults))).

Definition success_row (ev : PreparedEvent) (reco : RecoResult)
  (hd : list (nat * Hillas.t)) (reco_energy score : float) : TRow.t :=
  let xi := angular_separation (mc_az (mc ev)) (mc_alt (mc ev)) (az reco) (alt reco) in
  let offset :=
    angular_separation (run_array_direction ev).1 (run_array_direction ev).2
      (az reco) (alt reco) in
  TRow.setitem RecoEvent.obs_id (VInt (r1_obs_id ev))
  (TRow.setitem RecoEvent.event_id (VInt (r1_event_id ev))
  (TRow.setitem RecoEvent.mc_energy (VFloat (to_value "TeV" (mc_energy (mc ev))))
  (TRow.setitem RecoEvent.ErrEstDir (VFloat F64.nan)
  (TRow.setitem RecoEvent.ErrEstPos (VFloat F64.nan)
  (TRow.setitem RecoEvent.success (VBool true)
  (TRow.setitem RecoEvent.score (VFloat score)
  (TRow.setitem RecoEvent.mc_core_y (VFloat (to_value "m" (mc_core_y (mc ev))))
  (TRow.setitem RecoEvent.mc_core_x (VFloat (to_value "m" (mc_core_x (mc ev))))
  (TRow.setitem RecoEvent.reco_core_y (VFloat (to_value "m" (core_y reco)))
  (TRow.setitem RecoEvent.reco_core_x (VFloat (to_value "m" (core_x reco)))
  (TRow.setitem RecoEvent.h_max (VFloat (to_value "m" (h_max reco)))
  (TRow.setitem RecoEvent.xi (VFloat (to_value "deg" xi))
  (TRow.setitem RecoEvent.offset (VFloat (to_value "deg" offset))
  (TRow.setitem RecoEvent.reco_az (VFloat (to_value "deg" (az reco)))
  (TRow.setitem RecoEvent.reco_alt (VFloat (to_value "deg" (alt reco)))
  (TRow.setitem RecoEvent.reco_energy (VFloat reco_energy)
  (TRow.setitem RecoEvent.NTels_reco_sst (VInt (SST (n_tels ev)))
  (TRow.setitem RecoEvent.NTels_reco_mst (VInt (MST (n_tels ev)))
  (TRow.setitem RecoEvent.NTels_reco_lst (VInt (LST (n_tels ev)))
  (TRow.setitem RecoEvent.NTels_reco (VInt (Z.of_nat (length hd)))
  (TRow.setitem RecoEvent.NTels_trig
     (VInt (Z.of_nat (length (dl0_tels_with_data ev))))
     TRow.defaults))))))))))))))))))))).

(** The fused energy of line 187 and the fused score of line 208, for an
    event whose [reco_result] has its attributes. *)
Definition fused_energy (ev : PreparedEvent) (hd : list (nat * Hillas.t))
  : W float :=
  reco ← attributes (reco_result ev);
  energy_tel ← energy_loop ev hd (h_max reco);
  mret (weighted_mean (weights hd) energy_tel).

Definition fused_score (ev : PreparedEvent) (hd : list (nat * Hillas.t))
  (reco_energy : float) : W float :=
  reco ← attributes (reco_result ev);
  score_tel ← score_loop ev hd reco_energy (h_max reco);
  mret (weighted_mean (weights hd) score_tel).

(** What [body] computes for an event: the record it will append, or the
    exception that ends the run, and the model-bank calls made. *)
Definition event_outcome (ev : PreparedEvent) : W TRow.t :=
  reco ← attributes (reco_result ev);
  match hillas_dict ev with
  | Some hd =>
    reco_energy ← fused_energy ev hd;
    score ← fused_score ev hd reco_energy;
    mret (success_row ev reco hd reco_energy score)
  | None => mret (failure_row ev)
  end.

Definition event_row (ev : PreparedEvent) : option TRow.t :=
  match (event_outcome ev).1 with
  | Ok row => Some row
  | Raise _ => None
  end.

(** [rows] are the records of the events [evs], one each, in order. *)
Definition rows_for (evs : list PreparedEvent) (rows : list TRow.t) : Prop :=
  event_row <$> evs = Some <$> rows.

(** The events of the input files, in the order [main] would read them. *)
Definition all_events (filenamelist : list string) : list PreparedEvent :=
  flat_map events_of filenamelist.

(** Lines 51-133 as one call: the input files, or the exception that ends
    the run before the first file is opened, and what was logged. *)
Definition startup (args : Args) : W (list string) :=
  match filenames args with
  | None => wraise UnboundLocalError
  | Some [] =>
    (Raise (SystemExit (-1)),
     [APrint ("no files found; check indir: " +:+ indir args)])
  | Some filenamelist =>
    clf_file ← str_format (classifier_files args) (clf_kwargs args);
    load clf_file;;
    reg_file ← str_format (regressor_files args) (reg_kwargs args);
    load reg_file;;
    open_file args;;
    (Ok filenamelist, [ACreateTable])
  end.

(** What lines 257-264 log, and everything [main] logs after the loops
    (lines 255-266): a division by zero in the report of the event counter
    skips the report of the image counter. *)
Definition report : list action :=
  [APrint ""; ACutFlow "EventCutFlow"] ++
  (if cutflow_zero_division "EventCutFlow" then []
   else [APrint ""; ACutFlow "ImageCutFlow"]).

Definition wrapup : list action := AFlush :: report ++ [APrint "Job done!"].

(** ** The monads *)

Lemma bind_assoc {A B C} (c : M A) (k : A → M B) (k' : B → M C) s :
  ((c ≫= k) ≫= k') s = (c ≫= λ a, k a ≫= k') s.
Proof. unfold mbind, M_bind. destruct (c s) as [[a|e] s1]; reflexivity. Qed.

Lemma lift_bind {A B} (c : W A) (k : A → M B) s :
  (lift c ≫= k) s =
    match c.1 with
    | Ok a => k a (emit c.2 s)
    | Raise e => (Raise e, emit c.2 s)
    end.
Proof. unfold mbind, M_bind, lift. destruct c as [[a|e] l]; reflexivity. Qed.

Lemma wbind_pair {A B} (c : W A) (k : A → W B) :
  c ≫= k =
    match c.1 with
    | Ok a => ((k a).1, c.2 ++ (k a).2)
    | Raise e => (Raise e, c.2)
    end.
Proof.
  unfold mbind, W_bind. destruct c as [[a|e] l]; [|reflexivity].
  cbn. by destruct (k a).
Qed.

Lemma attributes_bind {A B} (o : option A) (c : A → W B) :
  attributes o ≫= c =
    match o with
    | Some a => c a
    | None => (Raise AttributeError, [])
    end.
Proof.
  unfold attributes. destruct o as [a|]; [|reflexivity].
  rewrite wbind_pair. unfold mret, W_ret; cbn. by destruct (c a).
Qed.

Lemma emit_nil s : emit [] s = s.
Proof. destruct s. unfold emit; cbn. by rewrite app_nil_r. Qed.

(** Evaluation of straight-line table code, innermost state first. *)
Ltac run_m :=
  cbv [mbind M_bind mret M_ret setitem flush append lift emit
       log wrec iobuf disk stop tick fst snd].

(** ** The loop body *)

Lemma wret_bind {A B} (a : A) (k : A → W B) : mret a ≫= k = k a.
Proof. unfold mbind, W_bind, mret, W_ret. by destruct (k a). Qed.

(** An event without a geometric fit raises at line 152, before any call. *)
Lemma event_outcome_no_fit ev :
  reco_result ev = None → event_outcome ev = (Raise AttributeError, []).
Proof. intros Hr. unfold event_outcome. by rewrite Hr. Qed.

Lemma fused_energy_some ev reco hd :
  reco_result ev = Some reco →
  fused_energy ev hd =
    match energy_loop ev hd (h_max reco) with
    | (Ok energy_tel, l1) => (Ok (weighted_mean (weights hd) energy_tel), l1)
    | (Raise e, l1) => (Raise e, l1)
    end.
Proof.
  intros Hr. unfold fused_energy. rewrite Hr, attributes_bind, wbind_pair.
  destruct (energy_loop ev hd _) as [[energy_tel|e] l1]; cbn; [|done].
  by rewrite app_nil_r.
Qed.

Lemma fused_score_some ev reco hd reco_energy :
  reco_result ev = Some reco →
  fused_score ev hd reco_energy =
    match score_loop ev hd reco_energy (h_max reco) with
    | (Ok score_tel, l2) => (Ok (weighted_mean (weights hd) score_tel), l2)
    | (Raise e, l2) => (Raise e, l2)
    end.
Proof.
  intros Hr. unfold fused_score. rewrite Hr, attributes_bind, wbind_pair.
  destruct (score_loop ev hd _ _) as [[score_tel|e] l2]; cbn; [|done].
  by rewrite app_nil_r.
Qed.

Lemma event_outcome_some ev reco hd :
  reco_result ev = Some reco →
  hillas_dict ev = Some hd →
  event_outcome ev =
    match energy_loop ev hd (h_max reco) with
    | (Ok energy_tel, l1) =>
      let reco_energy := weighted_mean (weights hd) energy_tel in
      match score_loop ev hd reco_energy (h_max reco) with
      | (Ok score_tel, l2) =>
        (Ok (success_row ev reco hd reco_energy
               (weighted_mean (weights hd) score_tel)),
         l1 ++ l2)
      | (Raise e, l2) => (Raise e, l1 ++ l2)
      end
    | (Raise e, l1) => (Raise e, l1)
    end.
Proof.
  intros Hr Hh. unfold event_outcome. rewrite Hr, Hh, attributes_bind.
  rewrite wbind_pair, (fused_energy_some _ _ _ Hr).
  destruct (energy_loop ev hd _) as [[energy_tel|e] l1]; cbn [fst snd]; [|done].
  rewrite wbind_pair, (fused_score_some _ _ _ _ Hr).
  destruct (score_loop ev hd _ _) as [[score_tel|e] l2]; cbn [fst snd].
  - unfold mret, W_ret; cbn. by rewrite !app_nil_r.
  - done.
Qed.

Lemma event_outcome_none ev reco :
  reco_result ev = Some reco →
  hillas_dict ev = None → event_outcome ev = (Ok (failure_row ev), []).
Proof. intros Hr Hh. unfold event_outcome. by rewrite Hr, Hh. Qed.

(** From a private record at its defaults, [body] appends the record of
    [event_outcome] after flushing what was buffered, or raises what
    [event_outcome] raises before touching the table. *)
Lemma body_spec ev s :
  wrec s = TRow.defaults →
  body ev s =
    match event_outcome ev with
    | (Ok row, calls) =>
      (Ok (), {| log := log s ++ calls ++ [AFlush; AAppend row];
                 wrec := TRow.defaults; iobuf := [row];
                 disk := disk s ++ iobuf s; stop := stop s; tick := tick s |})
    | (Raise e, calls) => (Raise e, emit calls s)
    end.
Proof.
  intros Hw. unfold body. rewrite lift_bind.
  destruct (reco_result ev) as [reco|] eqn:Hr.
  2: { by rewrite (event_outcome_no_fit _ Hr). }
  cbn [attributes mret W_ret fst snd]. rewrite emit_nil.
  destruct s as [lg wr io dk st tk]; simpl in Hw; subst wr. cbv zeta.
  destruct (hillas_dict ev) as [hd|] eqn:Hh.
  2: { rewrite (event_outcome_none _ _ Hr Hh). run_m.
       rewrite <- (app_assoc lg). reflexivity. }
  rewrite (event_outcome_some _ _ _ Hr Hh).
  rewrite !bind_assoc, !lift_bind.
  destruct (energy_loop ev hd (h_max reco)) as [[energy_tel|e] l1];
    cbn [fst snd]; [|reflexivity].
  rewrite !bind_assoc, !lift_bind. cbv zeta.
  destruct (score_loop ev hd _ (h_max reco)) as [[score_tel|e] l2];
    cbn [fst snd].
  - run_m. rewrite <- !(app_assoc lg). rewrite <- !app_assoc.
    reflexivity.
  - unfold emit; cbn. rewrite <- ?(app_assoc lg). reflexivity.
Qed.

(** ** The telescope loops *)

Lemma mapM_cons {A B} (f : A → W B) x l :
  mapM f (x :: l) =
    match (f x).1 with
    | Ok y =>
      match (mapM f l).1 with
      | Ok k => (Ok (y :: k), (f x).2 ++ (mapM f l).2)
      | Raise e => (Raise e, (f x).2 ++ (mapM f l).2)
      end
    | Raise e => (Raise e, (f x).2)
    end.
Proof.
  change (mapM f (x :: l)) with (y ← f x; k ← mapM f l; mret (y :: k)).
  rewrite wbind_pair.
  destruct (f x) as [[y|e] lx]; cbn [fst snd]; [|done].
  rewrite wbind_pair.
  destruct (mapM f l) as [[k|e] lk]; cbn; by rewrite ?app_nil_r.
Qed.

Lemma mapM_log {A B} (P : action → Prop) (f : A → W B) l :
  (∀ x, Forall P (f x).2) → Forall P (mapM f l).2.
Proof.
  intros Hf. induction l as [|x l IH]; [constructor|].
  rewrite mapM_cons. specialize (Hf x).
  destruct (f x) as [[y|e] lx]; cbn [fst snd] in *; [|done].
  destruct (mapM f l) as [[k|e] lk]; cbn [fst snd] in *;
    by apply Forall_app.
Qed.

Lemma mapM_ok_length {A B} (f : A → W B) l ys :
  (mapM f l).1 = Ok ys → length ys = length l.
Proof.
  revert ys. induction l as [|x l IH]; intros ys.
  - cbn. by intros [= <-].
  - rewrite mapM_cons.
    destruct (f x) as [[y|e] lx]; cbn [fst snd]; [|done].
    destruct (mapM f l) as [[k|e] lk]; cbn [fst snd] in *; [|done].
    intros [= <-]. cbn. f_equal. by apply IH.
Qed.

(** One call is logged per telescope when the loop completes. *)
Lemma mapM_ok_calls {A B} (f : A → W B) l ys :
  (∀ x y, (f x).1 = Ok y → length (f x).2 = 1%nat) →
  (mapM f l).1 = Ok ys → length (mapM f l).2 = length l.
Proof.
  intros Hf. revert ys. induction l as [|x l IH]; intros ys; [done|].
  rewrite mapM_cons. specialize (Hf x).
  destruct (f x) as [[y|e] lx]; cbn [fst snd] in *; [|done].
  destruct (mapM f l) as [[k|e] lk]; cbn [fst snd] in *; [|done].
  intros _. rewrite length_app, (Hf y eq_refl), (IH k eq_refl).
  reflexivity.
Qed.

(** An iteration that raises makes the loop raise. *)
Lemma mapM_raise {A B} (f : A → W B) l x :
  x ∈ l → (∃ e, (f x).1 = Raise e) → ∃ e, (mapM f l).1 = Raise e.
Proof.
  intros Hx Hr. induction l as [|x' l IH]; [by apply elem_of_nil in Hx|].
  rewrite mapM_cons.
  destruct (f x') as [[y|e] lx] eqn:Ef; cbn [fst snd]; [|by eexists].
  apply elem_of_cons in Hx as [->|Hx].
  - destruct Hr as [e He]. rewrite Ef in He. done.
  - destruct (IH Hx) as [e He].
    destruct (mapM f l) as [[k|e'] lk]; cbn [fst snd] in *; [done|by eexists].
Qed.

Lemma subscript_bind `{Countable K} {V B} (d : gmap K V) (k : K) (c : V → W B) :
  subscript d k ≫= c =
    match d !! k with
    | Some v => c v
    | None => (Raise KeyError, [])
    end.
Proof.
  unfold subscript. destruct (d !! k) as [v|]; [|reflexivity].
  rewrite wbind_pair. unfold mret, W_ret; cbn. by destruct (c v).
Qed.

Lemma energy_loop_log ev hd h : Forall is_predict (energy_loop ev hd h).2.
Proof.
  apply mapM_log. intros [tel_id moments]. rewrite !subscript_bind.
  destruct (subarray_tel ev !! tel_id) as [cam_id|]; [|constructor].
  rewrite !subscript_bind.
  destruct (regressor !! cam_id) as [model|]; [|constructor].
  rewrite !subscript_bind.
  destruct (impact_dict ev !! tel_id) as [impact|]; [|constructor].
  repeat constructor.
Qed.

Lemma score_loop_log ev hd reco_energy h :
  Forall (is_decision_on (log10 reco_energy)) (score_loop ev hd reco_energy h).2.
Proof.
  apply mapM_log. intros [tel_id moments]. rewrite !subscript_bind.
  destruct (subarray_tel ev !! tel_id) as [cam_id|]; [|constructor].
  rewrite !subscript_bind.
  destruct (classifier !! cam_id) as [model|]; [|constructor].
  repeat constructor.
Qed.

Lemma energy_loop_calls ev hd h energy_tel :
  (energy_loop ev hd h).1 = Ok energy_tel →
  length energy_tel = length hd ∧ length (energy_loop ev hd h).2 = length hd.
Proof.
  intros E. split; [by eapply mapM_ok_length|].
  eapply mapM_ok_calls; [|exact E].
  intros [tel_id moments] y. rewrite !subscript_bind.
  destruct (subarray_tel ev !! tel_id) as [cam_id|]; [|done].
  rewrite !subscript_bind.
  destruct (regressor !! cam_id) as [model|]; [|done].
  rewrite !subscript_bind.
  by destruct (impact_dict ev !! tel_id) as [impact|].
Qed.

(** A telescope whose camera has no model makes its loop raise. *)
Lemma energy_loop_no_model ev hd h tel_id moments cam_id :
  (tel_id, moments) ∈ hd →
  subarray_tel ev !! tel_id = Some cam_id →
  regressor !! cam_id = None →
  ∃ e, (energy_loop ev hd h).1 = Raise e.
Proof.
  intros Hin Hcam Hmodel. eapply mapM_raise; [exact Hin|].
  exists KeyError. cbn beta iota. rewrite subscript_bind, Hcam.
  by rewrite subscript_bind, Hmodel.
Qed.

Lemma score_loop_no_model ev hd reco_energy h tel_id moments cam_id :
  (tel_id, moments) ∈ hd →
  subarray_tel ev !! tel_id = Some cam_id →
  classifier !! cam_id = None →
  ∃ e, (score_loop ev hd reco_energy h).1 = Raise e.
Proof.
  intros Hin Hcam Hmodel. eapply mapM_raise; [exact Hin|].
  exists KeyError. cbn beta iota. rewrite subscript_bind, Hcam.
  by rewrite subscript_bind, Hmodel.
Qed.

(** ** The outcome of an event *)

Lemma is_predict_call a : is_predict a → is_call a.
Proof. by destruct a. Qed.

Lemma is_decision_call x a : is_decision_on x a → is_call a.
Proof. by destruct a. Qed.

Lemma event_outcome_calls ev : Forall is_call (event_outcome ev).2.
Proof.
  destruct (reco_result ev) as [reco|] eqn:Hr.
  2: { rewrite (event_outcome_no_fit _ Hr). constructor. }
  destruct (hillas_dict ev) as [hd|] eqn:Hh.
  - rewrite (event_outcome_some _ _ _ Hr Hh).
    pose proof (energy_loop_log ev hd (h_max reco)) as H1.
    destruct (energy_loop ev hd _) as [[energy_tel|e] l1]; cbn [fst snd] in *.
    + cbv zeta.
      pose proof (score_loop_log ev hd (weighted_mean (weights hd) energy_tel)
                    (h_max reco)) as H2.
      destruct (score_loop ev hd _ _) as [[score_tel|e] l2]; cbn [fst snd] in *;
        (apply Forall_app; split;
         [by eapply Forall_impl, is_predict_call
         |by eapply Forall_impl, is_decision_call]).
    + by eapply Forall_impl, is_predict_call.
  - rewrite (event_outcome_none _ _ Hr Hh). constructor.
Qed.

Lemma event_row_some ev row calls :
  event_outcome ev = (Ok row, calls) → event_row ev = Some row.
Proof. unfold event_row. by intros ->. Qed.

Lemma event_row_none ev e calls :
  event_outcome ev = (Raise e, calls) → event_row ev = None.
Proof. unfold event_row. by intros ->. Qed.

(** ** Logs *)

Lemma yielded_app l1 l2 : yielded (l1 ++ l2) = yielded l1 ++ yielded l2.
Proof. apply omap_app. Qed.

Lemma yielded_calls l : Forall is_call l → yielded l = [].
Proof.
  induction 1 as [|a l Ha _ IH]; [done|]. by destruct a.
Qed.

Lemma yielded_wrapup l : Forall is_wrapup l → yielded l = [].
Proof.
  induction 1 as [|a l Ha _ IH]; [done|]. by destruct a.
Qed.

Lemma unseen_calls l : Forall is_call l → unseen l.
Proof.
  intros H. eapply Forall_impl; [exact H|]. intros a Ha Hs. by destruct a.
Qed.

Lemma placed_iteration prev ev calls row b l :
  Forall is_call calls →
  placed (Some (AInspect Inner b)) l →
  placed prev (AYield ev :: calls ++ [AFlush; AAppend row; AInspect Inner b] ++ l).
Proof.
  intros Hc Hl. split; [done|]. generalize (AYield ev).
  induction Hc as [|a calls Ha _ IH]; intros a0.
  - cbn. eauto 10.
  - split; [by destruct a|]. apply IH.
Qed.

(** ** The event loop *)

Lemma event_loop_cons ev evs s :
  wrec s = TRow.defaults →
  event_loop (ev :: evs) s =
    match event_outcome ev with
    | (Ok row, calls) =>
      let seen := stop s || sigint (tick s) in
      let s' :=
        {| log := log s ++ AYield ev :: calls ++
                    [AFlush; AAppend row; AInspect Inner seen];
           wrec := TRow.defaults; iobuf := [row]; disk := disk s ++ iobuf s;
           stop := seen; tick := S (tick s) |} in
      if seen then (Ok (), s') else event_loop evs s'
    | (Raise e, calls) => (Raise e, emit (AYield ev :: calls) s)
    end.
Proof.
  intros Hw. cbn [event_loop]. rewrite lift_bind; cbn [fst snd].
  unfold mbind at 1, M_bind at 1. rewrite body_spec by done.
  destruct (event_outcome ev) as [[row|e] calls].
  - unfold mbind, M_bind, inspect, emit; cbn.
    rewrite <- !app_assoc. cbn.
    replace (calls ++ [AFlush; AAppend row] ++ [AInspect Inner (stop s || sigint (tick s))])
      with (calls ++ [AFlush; AAppend row; AInspect Inner (stop s || sigint (tick s))])
      by done.
    by destruct (stop s || sigint (tick s)).
  - unfold emit; cbn. by rewrite <- !app_assoc.
Qed.

Lemma yielded_iteration ev calls l :
  Forall is_call calls → yielded (AYield ev :: calls ++ l) = ev :: yielded l.
Proof.
  intros Hc. change (AYield ev :: calls ++ l) with ([AYield ev] ++ calls ++ l).
  by rewrite !yielded_app, (yielded_calls calls Hc).
Qed.

Lemma unseen_iteration ev calls row :
  Forall is_call calls →
  unseen (AYield ev :: calls ++ [AFlush; AAppend row]).
Proof.
  intros Hc. apply Forall_cons; split; [by intros []|].
  apply Forall_app; split; [by apply unseen_calls|].
  repeat constructor; by intros [].
Qed.

Lemma rows_for_cons ev row evs rows :
  event_row ev = Some row → rows_for evs rows → rows_for (ev :: evs) (row :: rows).
Proof. unfold rows_for. intros H1 H2. cbn. by rewrite H1, H2. Qed.

Lemma rows_for_length evs rows : rows_for evs rows → length evs = length rows.
Proof.
  unfold rows_for. intros H. apply (f_equal length) in H.
  by rewrite !length_fmap in H.
Qed.

(** The rows appended by the event loop are the records of the events it
    started, one each; it reads the flag after every record and goes on
    only while the flag is clear. *)
Lemma event_loop_inv evs : ∀ s r s',
  wrec s = TRow.defaults → stop s = false →
  event_loop evs s = (r, s') →
  ∃ started rows l,
    log s' = log s ++ l ∧ yielded l = started ∧
    wrec s' = TRow.defaults ∧
    table s' = table s ++ rows ∧
    started `prefix_of` evs ∧
    match r with
    | Ok _ =>
      rows_for started rows ∧
      (∀ prev, placed prev l) ∧
      (l = [] ∨ ∃ l0 b, l = l0 ++ [AInspect Inner b]) ∧
      if stop s'
      then ∃ l0, l = l0 ++ [AInspect Inner true] ∧ unseen l0
      else started = evs ∧ unseen l
    | Raise e =>
      ∃ done ev,
        started = done ++ [ev] ∧ rows_for done rows ∧ event_row ev = None ∧
        (event_outcome ev).1 = Raise e
    end.
Proof.
  induction evs as [|ev evs IH]; intros s r s' Hw Hs E.
  - cbn in E. injection E as <- <-. exists [], [], [].
    split; [by rewrite app_nil_r|]. split; [done|]. split; [done|].
    split; [by rewrite app_nil_r|]. split; [done|].
    split; [done|]. split; [done|]. split; [by left|].
    rewrite Hs. split; [done|constructor].
  - rewrite event_loop_cons in E by done.
    pose proof (event_outcome_calls ev) as Hc.
    destruct (event_outcome ev) as [[row|e] calls] eqn:Eo; cbn [snd] in Hc.
    + cbv zeta in E. rewrite Hs in E. cbn [orb] in E.
      destruct (sigint (tick s)) eqn:Esig.
      * injection E as <- <-. cbn [log wrec stop].
        exists [ev], [row],
          (AYield ev :: calls ++ [AFlush; AAppend row; AInspect Inner true]).
        split; [done|]. split; [by rewrite yielded_iteration|].
        split; [done|]. split; [unfold table; cbn; by rewrite <- app_assoc|].
        split; [by apply prefix_cons, prefix_nil|].
        split; [apply rows_for_cons; [by eapply event_row_some|done]|].
        split.
        { intros prev.
          apply (placed_iteration prev ev calls row true []); done. }
        split.
        { right. exists (AYield ev :: calls ++ [AFlush; AAppend row]), true.
          cbn. by rewrite <- app_assoc. }
        exists (AYield ev :: calls ++ [AFlush; AAppend row]).
        split; [cbn; by rewrite <- app_assoc|by apply unseen_iteration].
      * apply IH in E; [|done..].
        destruct E as (started & rows & l & Hlog & Hy & Hw' & Ht & Hp & Hr).
        cbn [log] in Hlog.
        set (seg := AYield ev :: calls ++ [AFlush; AAppend row; AInspect Inner false]) in *.
        assert (Hseg : seg = (AYield ev :: calls ++ [AFlush; AAppend row])
                               ++ [AInspect Inner false]).
        { unfold seg. cbn. by rewrite <- app_assoc. }
        exists (ev :: started), (row :: rows), (seg ++ l).
        split; [by rewrite Hlog, <- app_assoc|].
        split.
        { unfold seg. rewrite <- app_comm_cons, <- app_assoc.
          rewrite yielded_iteration by done. by rewrite yielded_app, Hy. }
        split; [done|].
        split.
        { rewrite Ht. unfold table; cbn. by rewrite <- !app_assoc. }
        split; [by apply prefix_cons|].
        destruct r as [[]|e].
        -- destruct Hr as (Hrows & Hpl & Hend & Hstop).
           split; [apply rows_for_cons; [by eapply event_row_some|done]|].
           split.
           { intros prev. unfold seg. rewrite <- app_comm_cons, <- app_assoc.
             apply placed_iteration; [done|apply Hpl]. }
           split.
           { right. destruct Hend as [->|(l0 & b & ->)].
             - rewrite app_nil_r, Hseg. eauto.
             - exists (seg ++ l0), b. by rewrite app_assoc. }
           assert (Hu : unseen seg).
           { rewrite Hseg. apply Forall_app; split;
               [by apply unseen_iteration|]. repeat constructor. by intros []. }
           destruct (stop s').
           ++ destruct Hstop as (l0 & -> & Hl0).
              exists (seg ++ l0). split; [by rewrite app_assoc|].
              by apply Forall_app.
           ++ destruct Hstop as [-> Hl]. split; [done|by apply Forall_app].
        -- destruct Hr as (done & ev' & -> & Hrows & Hnone & Hexn).
           exists (ev :: done), ev'. split; [done|].
           split; [apply rows_for_cons; [by eapply event_row_some|done]|done].
    + injection E as <- <-. cbn [log wrec emit].
      exists [ev], [], (AYield ev :: calls).
      split; [done|].
      split; [by rewrite <- (app_nil_r calls), yielded_iteration|].
      split; [done|]. split; [unfold table; cbn; by rewrite app_nil_r|].
      split; [by apply prefix_cons, prefix_nil|].
      exists [], ev. split; [done|]. split; [done|].
      split; [by eapply event_row_none|by rewrite Eo].
Qed.

Lemma rows_for_app evs1 rows1 evs2 rows2 :
  rows_for evs1 rows1 → rows_for evs2 rows2 →
  rows_for (evs1 ++ evs2) (rows1 ++ rows2).
Proof. unfold rows_for. intros H1 H2. by rewrite !fmap_app, H1, H2. Qed.

Lemma placed_app prev l1 l2 :
  placed prev (l1 ++ l2) ↔
  placed prev l1 ∧ placed (from_option Some prev (last l1)) l2.
Proof.
  revert prev. induction l1 as [|a l1 IH]; intros prev; cbn [app placed].
  - cbn. tauto.
  - rewrite IH.
    replace (from_option Some prev (last (a :: l1)))
      with (from_option Some (Some a) (last l1)); [tauto|].
    destruct l1 as [|b l1]; [done|].
    change (last (a :: b :: l1)) with (last (b :: l1)).
    destruct (last (b :: l1)) eqn:E; [done|]. by apply last_None in E.
Qed.

(** The reading of the flag after the event loop of a file is well placed. *)
Lemma placed_file prev f l b rest :
  (∀ p, placed p l) →
  l = [] ∨ (∃ l0 b0, l = l0 ++ [AInspect Inner b0]) →
  placed (Some (AInspect Outer b)) rest →
  placed prev (ASource f :: l ++ AInspect Outer b :: rest).
Proof.
  intros Hl Hend Hrest. split; [done|].
  apply placed_app. split; [apply Hl|].
  split; [|done].
  destruct Hend as [->|(l0 & b0 & ->)]; cbn.
  - right. by eexists.
  - rewrite last_snoc. cbn. left. by eexists.
Qed.

(** ** The file loop *)

Lemma file_loop_cons f rest s :
  file_loop (f :: rest) s =
    match event_loop (events_of f) (emit [ASource f] s) with
    | (Ok _, s1) =>
      let seen := stop s1 || sigint (tick s1) in
      let s2 :=
        {| log := log s1 ++ [AInspect Outer seen]; wrec := wrec s1;
           iobuf := iobuf s1; disk := disk s1; stop := seen;
           tick := S (tick s1) |} in
      if seen then (Ok (), s2) else file_loop rest s2
    | (Raise e, s1) => (Raise e, s1)
    end.
Proof.
  cbn [file_loop]. rewrite lift_bind; cbn [fst snd].
  unfold mbind at 1, M_bind at 1.
  destruct (event_loop _ _) as [[[]|e] s1]; [|done].
  unfold mbind, M_bind, inspect; cbn.
  by destruct (stop s1 || sigint (tick s1)).
Qed.

Lemma file_loop_inv fl : ∀ s r s',
  wrec s = TRow.defaults → stop s = false →
  file_loop fl s = (r, s') →
  ∃ started rows l,
    log s' = log s ++ l ∧ yielded l = started ∧
    wrec s' = TRow.defaults ∧
    table s' = table s ++ rows ∧
    started `prefix_of` all_events fl ∧
    match r with
    | Ok _ =>
      rows_for started rows ∧
      (∀ prev, placed prev l) ∧
      if stop s'
      then ∃ l0 lvl tail,
             l = l0 ++ AInspect lvl true :: tail ∧ unseen l0 ∧
             Forall is_wrapup tail
      else started = all_events fl ∧ unseen l
    | Raise e =>
      ∃ done ev,
        started = done ++ [ev] ∧ rows_for done rows ∧ event_row ev = None ∧
        (event_outcome ev).1 = Raise e
    end.
Proof.
  induction fl as [|f rest IH]; intros s r s' Hw Hs E.
  - cbn in E. injection E as <- <-. exists [], [], [].
    split; [by rewrite app_nil_r|]. split; [done|]. split; [done|].
    split; [by rewrite app_nil_r|]. split; [done|].
    split; [done|]. split; [done|]. rewrite Hs. split; [done|constructor].
  - rewrite file_loop_cons in E.
    destruct (event_loop _ _) as [r1 s1] eqn:E1.
    apply event_loop_inv in E1; [|done..].
    destruct E1 as (st1 & rows1 & l1 & Hlog1 & Hy1 & Hw1 & Ht1 & Hp1 & Hr1).
    cbn [log emit] in Hlog1. unfold table in Ht1; cbn [disk iobuf emit] in Ht1.
    fold (table s) in Ht1. fold (table s1) in Ht1.
    assert (Hpre : st1 `prefix_of` all_events (f :: rest)).
    { cbn. by apply prefix_app_r. }
    destruct r1 as [[]|e].
    2: { injection E as <- <-. exists st1, rows1, (ASource f :: l1).
         split; [by rewrite Hlog1, <- app_assoc|]. by repeat split. }
    destruct Hr1 as (Hrows1 & Hpl1 & Hend1 & Hstop1). cbv zeta in E.
    destruct (stop s1) eqn:Es1.
    + (* the event loop was left on the flag *)
      cbn [orb] in E. injection E as <- <-. cbn [log wrec stop].
      destruct Hstop1 as (l0 & Hl1 & Hl0).
      exists st1, rows1, (ASource f :: l1 ++ [AInspect Outer true]).
      split; [by rewrite Hlog1, <- !app_assoc|].
      split.
      { change (ASource f :: l1 ++ [AInspect Outer true])
          with ([ASource f] ++ l1 ++ [AInspect Outer true]).
        by rewrite !yielded_app, Hy1, app_nil_r. }
      do 3 (split; [done|]). split; [done|].
      split; [intros prev; by apply placed_file|].
      exists (ASource f :: l0), Inner, [AInspect Outer true].
      split; [by rewrite Hl1, <- app_assoc|].
      split; [apply Forall_cons; split; [by intros []|done]|by repeat constructor].
    + cbn [orb] in E. destruct Hstop1 as [-> Hl1].
      destruct (sigint (tick s1)) eqn:Esig.
      * (* the flag is seen after the file *)
        injection E as <- <-. cbn [log wrec stop].
        exists (events_of f), rows1, (ASource f :: l1 ++ [AInspect Outer true]).
        split; [by rewrite Hlog1, <- !app_assoc|].
        split.
        { change (ASource f :: l1 ++ [AInspect Outer true])
            with ([ASource f] ++ l1 ++ [AInspect Outer true]).
          by rewrite !yielded_app, Hy1, app_nil_r. }
        do 3 (split; [done|]). split; [done|].
        split; [intros prev; by apply placed_file|].
        exists (ASource f :: l1), Outer, [].
        split; [done|].
        split; [apply Forall_cons; split; [by intros []|done]|constructor].
      * apply IH in E; [|done..].
        destruct E as (st2 & rows2 & l2 & Hlog2 & Hy2 & Hw2 & Ht2 & Hp2 & Hr2).
        cbn [log] in Hlog2. unfold table in Ht2 at 2; cbn [disk iobuf] in Ht2.
        fold (table s1) in Ht2.
        exists (events_of f ++ st2), (rows1 ++ rows2),
          (ASource f :: l1 ++ AInspect Outer false :: l2).
        split.
        { by rewrite Hlog2, Hlog1, <- !app_assoc. }
        split.
        { change (ASource f :: l1 ++ AInspect Outer false :: l2)
            with ([ASource f] ++ l1 ++ [AInspect Outer false] ++ l2).
          by rewrite !yielded_app, Hy1, Hy2. }
        split; [done|]. split; [by rewrite Ht2, Ht1, app_assoc|].
        split; [cbn; by apply prefix_app|].
        assert (Hu : unseen (ASource f :: l1 ++ [AInspect Outer false])).
        { apply Forall_cons; split; [by intros []|].
          apply Forall_app; split; [done|]. repeat constructor. by intros []. }
        destruct r as [[]|e].
        -- destruct Hr2 as (Hrows2 & Hpl2 & Hstop2).
           split; [by apply rows_for_app|].
           split; [intros prev; by apply placed_file|].
           destruct (stop s').
           ++ destruct Hstop2 as (l0 & lvl & tail & -> & Hl0 & Htail).
              exists ((ASource f :: l1 ++ [AInspect Outer false]) ++ l0), lvl, tail.
              split; [cbn; by rewrite <- !app_assoc|].
              split; [by apply Forall_app|done].
           ++ destruct Hstop2 as [-> Hl2]. split; [done|].
              change (ASource f :: l1 ++ AInspect Outer false :: l2)
                with (ASource f :: l1 ++ [AInspect Outer false] ++ l2).
              rewrite app_assoc, app_comm_cons. by apply Forall_app.
        -- destruct Hr2 as (done & ev & -> & Hrows2 & Hnone & Hexn).
           exists (events_of f ++ done), ev.
           split; [by rewrite app_assoc|]. split; [by apply rows_for_app|done].
Qed.

(** ** What the loops log *)



(** ** The whole run *)

Lemma str_format_log template kw : (str_format template kw).2 = [].
Proof. unfold str_format. by destruct (format template kw). Qed.

Lemma wbind_log {A B} (P : action → Prop) (c : W A) (k : A → W B) :
  Forall P c.2 → (∀ a, Forall P (k a).2) → Forall P (c ≫= k).2.
Proof.
  intros Hc Hk. rewrite wbind_pair. destruct c as [[a|e] l]; cbn in *; [|done].
  apply Forall_app. by split.
Qed.

Lemma wbind_ok {A B} (c : W A) (k : A → W B) b l :
  c ≫= k = (Ok b, l) → ∃ a, c.1 = Ok a ∧ ∃ l', k a = (Ok b, l').
Proof.
  rewrite wbind_pair. destruct c as [[a|e] l0]; cbn; [|done].
  destruct (k a) as [r l'] eqn:Ek. cbn. intros [= -> <-]. by eauto.
Qed.

(** Before the loops nothing is logged but the report of the guard, the
    loading of the model files, the opening of the output file and the
    creation of the table; the report of the guard is logged only when the
    guard fires. *)
Lemma startup_log args : Forall is_startup (startup args).2.
Proof.
  unfold startup. destruct (filenames args) as [[|f fl]|];
    [by repeat constructor| |constructor].
  repeat (apply wbind_log; [|intros ?]);
    rewrite ?str_format_log; by repeat constructor.
Qed.


Lemma startup_ok args fl l :
  startup args = (Ok fl, l) → filenames args = Some fl ∧ fl ≠ [].
Proof.
  unfold startup. destruct (filenames args) as [[|f fl']|]; [done| |done].
  intros E.
  repeat (apply wbind_ok in E as (? & _ & ? & E)).
  by injection E as <- _.
Qed.

Lemma startup_guard args :
  match filenames args with
  | None => startup args = (Raise UnboundLocalError, [])
  | Some [] =>
    startup args =
      (Raise (SystemExit (-1)),
       [APrint ("no files found; check indir: " +:+ indir args)])
  | Some _ => True
  end.
Proof. unfold startup. by destruct (filenames args) as [[|f fl]|]. Qed.

Lemma is_startup_quiet l :
  Forall is_startup l →
  yielded l = [] ∧ unseen l ∧ ∀ prev, placed prev l.
Proof.
  induction 1 as [|a l Ha _ (IH1 & IH2 & IH3)].
  { split; [done|]. split; [constructor|]. by intros prev. }
  split; [by destruct a|].
  split; [apply Forall_cons; split; [intros Hs; by destruct a|done]|].
  intros prev. split; [by destruct a|apply IH3].
Qed.

Lemma is_wrapup_wrapup :
  Forall is_wrapup wrapup ∧ AFlush ∈ wrapup ∧ ∀ prev, placed prev wrapup.
Proof.
  unfold wrapup, report. split; [|split; [by left|]].
  - destruct (cutflow_zero_division _); by repeat constructor.
  - intros prev. destruct (cutflow_zero_division _); cbn; tauto.
Qed.

Lemma main_eq args :
  main args init =
    match startup args with
    | (Raise e, l) => (Raise e, emit l init)
    | (Ok fl, l) =>
      match file_loop fl (loaded l) with
      | (Ok _, s) =>
        (Ok (), {| log := log s ++ wrapup; wrec := wrec s; iobuf := [];
                   disk := disk s ++ iobuf s; stop := stop s; tick := tick s |})
      | (Raise e, s) => (Raise e, s)
      end
    end.
Proof.
  unfold main, startup. destruct (filenames args) as [[|f fl]|]; [done| |done].
  unfold mbind at 1, M_bind at 1, mret at 1, M_ret at 1.
  rewrite bool_decide_eq_false_2 by done.
  unfold mbind at 1, M_bind at 1, mret at 1, M_ret at 1.
  unfold load, open_file.
  rewrite lift_bind, wbind_pair.
  pose proof (str_format_log (classifier_files args) (clf_kwargs args)) as H1.
  destruct (str_format _ _) as [[clf|e] l1]; cbn [fst snd] in *; subst l1;
    [|done].
  rewrite lift_bind, wbind_pair; cbn [fst snd].
  destruct (load_error clf); [done|].
  rewrite lift_bind, wbind_pair.
  pose proof (str_format_log (regressor_files args) (reg_kwargs args)) as H2.
  destruct (str_format _ _) as [[reg|e] l2]; cbn [fst snd] in *; subst l2;
    [|reflexivity].
  rewrite lift_bind, wbind_pair; cbn [fst snd].
  destruct (load_error reg);
    [reflexivity|].
  rewrite lift_bind, wbind_pair; cbn [fst snd].
  destruct (open_error _);
    [reflexivity|].
  unfold mbind at 1, M_bind at 1, create_table at 1.
  cbn [emit init log app fst snd].
  unfold mbind at 1, M_bind at 1.
  match goal with
  | |- context [file_loop (f :: fl) ?s] =>
    change s with
      (loaded ([ALoad clf; ALoad reg;
                AOpenFile (reco_outfile args).1 (reco_outfile args).2;
                ACreateTable]))
  end.
  destruct (file_loop (f :: fl) _) as [[[]|e] s]; [|done].
  unfold wrapup, report, try_except, cutflow.
  unfold mbind, M_bind, flush, print, lift, emit; cbn.
  destruct (cutflow_zero_division "EventCutFlow"); cbn;
    [by rewrite <- !app_assoc|].
  destruct (cutflow_zero_division "ImageCutFlow"); cbn;
    by rewrite <- !app_assoc.
Qed.

(** What every run of [main] leaves behind.  When it returns: storage holds
    one record per event started, in order, nothing is left in the buffer,
    every reading of the flag is well placed, and after a reading that
    found the flag set nothing but the wrap-up was done.  When it raises:
    either no event was started, or the last event started is the one that
    raised and every earlier one has its record. *)
Lemma main_inv args r s :
  main args init = (r, s) →
  match r with
  | Ok _ =>
    ∃ fl, filenames args = Some fl ∧ fl ≠ [] ∧
      iobuf s = [] ∧
      rows_for (yielded (log s)) (disk s) ∧
      yielded (log s) `prefix_of` all_events fl ∧
      placed None (log s) ∧
      if stop s
      then ∃ l0 lvl tail,
             log s = l0 ++ AInspect lvl true :: tail ∧ unseen l0 ∧
             Forall is_wrapup tail ∧ AFlush ∈ tail
      else yielded (log s) = all_events fl
  | Raise e =>
    (yielded (log s) = [] ∧ table s = [] ∧ startup args = (Raise e, log s)) ∨
    (∃ done ev,
       yielded (log s) = done ++ [ev] ∧ rows_for done (table s) ∧
       event_row ev = None ∧ (event_outcome ev).1 = Raise e)
  end.
Proof.
  rewrite main_eq. pose proof (startup_log args) as Hst.
  destruct (startup args) as [[fl|e0] l0] eqn:Es; cbn [snd] in Hst.
  2: { intros [= <- <-]. left. destruct (is_startup_quiet _ Hst) as (Hy & _).
       cbn [emit log init app]. by rewrite Hy. }
  destruct (startup_ok _ _ _ Es) as [Hfl Hne].
  destruct (is_startup_quiet _ Hst) as (Hy0 & Hu0 & Hp0).
  destruct (file_loop fl (loaded l0)) as [r1 s1] eqn:E1.
  apply file_loop_inv in E1; [|done..].
  destruct E1 as (st & rows & l & Hlog & Hy & Hw & Ht & Hp & Hr).
  cbn [log loaded] in Hlog. unfold table in Ht at 2; cbn in Ht.
  destruct (is_wrapup_wrapup) as (Hwr & Hfl' & Hpw).
  destruct r1 as [[]|e]; intros [= <- <-].
  - destruct Hr as (Hrows & Hpl & Hstop). cbn [log iobuf disk stop].
    assert (Hyl : yielded (log s1 ++ wrapup) = st).
    { rewrite Hlog, <- app_assoc, !yielded_app, Hy, Hy0.
      by rewrite (yielded_wrapup _ Hwr), app_nil_r. }
    exists fl. split; [done|]. split; [done|]. split; [done|].
    split; [by rewrite Hyl, <- Ht in *|]. split; [by rewrite Hyl|].
    split.
    { rewrite Hlog, <- app_assoc. apply placed_app. split; [apply Hp0|].
      apply placed_app. split; [apply Hpl|apply Hpw]. }
    destruct (stop s1).
    + destruct Hstop as (l1 & lvl & tail & -> & Hl1 & Htail).
      exists (l0 ++ l1), lvl, (tail ++ wrapup).
      split; [rewrite Hlog; by rewrite <- !app_assoc|].
      split; [by apply Forall_app|].
      split; [by apply Forall_app|].
      apply elem_of_app. by right.
    + destruct Hstop as [-> _]. by rewrite Hyl.
  - right. destruct Hr as (done & ev & -> & Hrows & Hnone & Hexn).
    exists done, ev. split; [by rewrite Hlog, yielded_app, Hy, Hy0|].
    split; [by rewrite Ht|done].
Qed.

(** ** Rows *)

Lemma rows_for_lookup evs rows i ev :
  rows_for evs rows → evs !! i = Some ev →
  ∃ row, rows !! i = Some row ∧ event_row ev = Some row.
Proof.
  unfold rows_for. intros H Hi.
  apply (f_equal (λ l, l !! i)) in H. rewrite !list_lookup_fmap, Hi in H.
  cbn in H. destruct (rows !! i) as [row|]; [|done].
  exists row. split; [done|]. by injection H.
Qed.

Lemma event_row_cases ev row :
  event_row ev = Some row →
  ∃ reco, reco_result ev = Some reco ∧
    ((hillas_dict ev = None ∧ row = failure_row ev) ∨
     (∃ hd reco_energy score,
        hillas_dict ev = Some hd ∧
        row = success_row ev reco hd reco_energy score)).
Proof.
  unfold event_row. destruct (reco_result ev) as [reco|] eqn:Hr.
  2: { by rewrite (event_outcome_no_fit _ Hr). }
  intros Hrow. exists reco. split; [done|]. revert Hrow.
  destruct (hillas_dict ev) as [hd|] eqn:Hh.
  - rewrite (event_outcome_some _ _ _ Hr Hh).
    destruct (energy_loop _ _ _) as [[energy_tel|e] l1]; [|done]. cbv zeta.
    destruct (score_loop _ _ _ _) as [[score_tel|e] l2]; [|done].
    intros [= <-]. right. eauto.
  - rewrite (event_outcome_none _ _ Hr Hh). intros [= <-]. by left.
Qed.

(** ** Every row of every run *)

(** The rows of a run, returned or not, are the records of the events that
    were completed, in order; at most one more event was started, and it is
    the one whose exception ended the run. *)
Lemma main_done args r s :
  main args init = (r, s) →
  ∃ done,
    rows_for done (table s) ∧
    (yielded (log s) = done ∧ (r = Ok () → iobuf s = []) ∨
     ∃ ev e, yielded (log s) = done ++ [ev] ∧ event_row ev = None ∧
             (event_outcome ev).1 = Raise e ∧ r = Raise e).
Proof.
  intros E. apply main_inv in E. destruct r as [[]|e].
  - destruct E as (fl & _ & _ & Hio & Hrows & _).
    exists (yielded (log s)). split; [|by left].
    unfold table. by rewrite Hio, app_nil_r.
  - destruct E as [(Hy & Ht & _)|(done & ev & Hy & Hrows & Hnone & Hexn)].
    + exists []. rewrite Hy, Ht. by split; [|left].
    + exists done. split; [done|]. right. by exists ev, e.
Qed.

Lemma run_row_lookup args r s i ev row :
  main args init = (r, s) →
  yielded (log s) !! i = Some ev →
  table s !! i = Some row →
  event_row ev = Some row.
Proof.
  intros E Hi Ht. apply main_done in E as (done & Hrows & Hy).
  assert (Hlt : (i < length done)%nat).
  { rewrite (rows_for_length _ _ Hrows). by eapply lookup_lt_Some. }
  assert (Hd : done !! i = Some ev).
  { destruct Hy as [[<- _]|(ev' & e & Hy & _)]; [done|].
    rewrite Hy, lookup_app_l in Hi; done. }
  destruct (rows_for_lookup _ _ _ _ Hrows Hd) as (row' & Hrow' & Hev).
  congruence.
Qed.

(** A run that returns has stored a row for every event it read. *)
Lemma run_row_exists args s i ev :
  main args init = (Ok (), s) →
  yielded (log s) !! i = Some ev →
  ∃ row, disk s !! i = Some row ∧ event_row ev = Some row.
Proof.
  intros E Hi. apply main_inv in E as (fl & _ & _ & _ & Hrows & _).
  by eapply rows_for_lookup.
Qed.


Lemma rows_for_row evs rows row :
  rows_for evs rows → row ∈ rows → ∃ ev, ev ∈ evs ∧ event_row ev = Some row.
Proof.
  intros Hrows [i Hi]%list_elem_of_lookup.
  destruct (lookup_lt_is_Some_2 evs i) as [ev Hev].
  { rewrite (rows_for_length _ _ Hrows). by eapply lookup_lt_Some. }
  destruct (rows_for_lookup _ _ _ _ Hrows Hev) as (row' & Hrow' & Hrow).
  exists ev. split; [by eapply list_elem_of_lookup_2|congruence].
Qed.

(** ** Events without Hillas moments *)


(** ** The identifier columns *)

(** C10: [obs_id] is kept in a signed 16-bit cell and [event_id] in a signed
    32-bit cell.  In every run, the row at the place of an event holds the
    identifiers of that event reduced into the range of their cells, numbers
    congruent to them modulo 2^16 resp. 2^32, and an identifier outside the
    range of its cell is stored as a different number; a run that returns
    has stored such a row for every event it read. *)
Theorem C10_identifier_cells args r s i ev :
  main args init = (r, s) →
  yielded (log s) !! i = Some ev →
  RecoEvent.ctype RecoEvent.obs_id = Int16Col ∧
  RecoEvent.ctype RecoEvent.event_id = Int32Col ∧
  (∀ row, table s !! i = Some row →
     TRow.getitem RecoEvent.obs_id row = Some (VInt (wrap 16 (r1_obs_id ev))) ∧
     TRow.getitem RecoEvent.event_id row =
       Some (VInt (wrap 32 (r1_event_id ev)))) ∧
  (r = Ok () → ∃ row, disk s !! i = Some row ∧ table s !! i = Some row) ∧
  in_range 16 (wrap 16 (r1_obs_id ev)) ∧
  in_range 32 (wrap 32 (r1_event_id ev)) ∧
  (wrap 16 (r1_obs_id ev) - r1_obs_id ev) mod 2 ^ 16 = 0 ∧
  (wrap 32 (r1_event_id ev) - r1_event_id ev) mod 2 ^ 32 = 0 ∧
  (¬ in_range 16 (r1_obs_id ev) → wrap 16 (r1_obs_id ev) ≠ r1_obs_id ev) ∧
  (¬ in_range 32 (r1_event_id ev) → wrap 32 (r1_event_id ev) ≠ r1_event_id ev).
Proof.
  intros E Hi. do 2 (split; [reflexivity|]). split.
  { intros row Ht. pose proof (run_row_lookup _ _ _ _ _ _ E Hi Ht) as Hev.
    apply event_row_cases in Hev
      as (reco & _ & [[_ ->]|(hd & x & y & _ & ->)]); by split. }
  split.
  { intros ->. destruct (run_row_exists _ _ _ _ E Hi) as (row & Hd & _).
    exists row. split; [done|]. unfold table. by apply lookup_app_l_Some. }
  unfold wrap, in_range. change (2 ^ (16 - 1)) with 32768.
  change (2 ^ (32 - 1)) with 2147483648. change (2 ^ 16) with 65536.
  change (2 ^ 32) with 4294967296.
  pose proof (Z.mod_pos_bound (r1_obs_id ev + 32768) 65536 eq_refl).
  pose proof (Z.mod_pos_bound (r1_event_id ev + 2147483648) 4294967296 eq_refl).
  pose proof (Z.div_mod (r1_obs_id ev + 32768) 65536 ltac:(done)).
  pose proof (Z.div_mod (r1_event_id ev + 2147483648) 4294967296 ltac:(done)).
  repeat split; try lia.
  - replace ((r1_obs_id ev + 32768) `mod` 65536 - 32768 - r1_obs_id ev)
      with (- ((r1_obs_id ev + 32768) `div` 65536) * 65536) by lia.
    apply Z.mod_mul. done.
  - replace ((r1_event_id ev + 2147483648) `mod` 4294967296 - 2147483648
             - r1_event_id ev)
      with (- ((r1_event_id ev + 2147483648) `div` 4294967296) * 4294967296)
      by lia.
    apply Z.mod_mul. done.
Qed.

(** ** Flushing *)

(** C7: [body] flushes and then appends.  When it returns, the record of
    its event is the one row of the buffer, storage holds only the rows of
    earlier events, and nothing was logged after the [append]: the row is
    not in storage when the next event is read. *)
Theorem C7_row_still_buffered ev s s' :
  wrec s = TRow.defaults →
  body ev s = (Ok (), s') →
  ∃ row l,
    event_row ev = Some row ∧
    log s' = log s ++ l ++ [AFlush; AAppend row] ∧
    iobuf s' = [row] ∧
    disk s' = table s.
Proof.
  intros Hw E. rewrite body_spec in E by done.
  destruct (event_outcome ev) as [[row|e] calls] eqn:Eo; [|done].
  injection E as <-. exists row, calls. by erewrite event_row_some.
Qed.

(** Only the [flush] after the loops brings the last row to storage. *)
Lemma main_flushes_last args s :
  main args init = (Ok (), s) → iobuf s = [] ∧ ∃ l, log s = l ++ wrapup.
Proof.
  rewrite main_eq. destruct (startup args) as [[fl|e] l0]; [|done].
  destruct (file_loop _ _) as [[[]|e] s1]; [|done].
  intros [= <-]. split; [done|by eexists].
Qed.

(** ** The input files *)

(** C9: without a list of input files the local variable [filenamelist] is
    never bound, and reading it at line 57 raises: nothing is printed. *)
Theorem C9_unbound_filenamelist args :
  truthy (infile_list args) = false →
  main args init = (Raise UnboundLocalError, init) ∧
  exit_status (main args init).1 = 1.
Proof.
  intros Ht. rewrite main_eq. pose proof (startup_guard args) as Hg.
  unfold filenames in Hg. rewrite Ht in Hg. by rewrite Hg.
Qed.


(** ** Fusion *)

Lemma div_zero_not_finite x z :
  F64.is_zero z = true → F64.is_finite (F64.div x z) = false.
Proof. destruct z; [|done..]. intros _. by destruct x. Qed.

Lemma weighted_mean_zero_weight weight_tel value_tel :
  F64.is_zero (py_sum weight_tel) = true →
  F64.is_finite (weighted_mean weight_tel value_tel) = false.
Proof. apply div_zero_not_finite. Qed.

Lemma f32_not_finite x : F64.is_finite x = false → F32.of_f64 x = x.
Proof. by destruct x. Qed.

Lemma add_zero_pos w : F64.is_pos w = true → F64.add F64.zero w = w.
Proof. by destruct w as [[]|[]| |[] m e]. Qed.

Lemma add_zero_idem x :
  F64.add F64.zero (F64.add F64.zero x) = F64.add F64.zero x.
Proof. by destruct x as [[]|[]| |]. Qed.

(** One number: [numpy.sum] and [sum] both add it to zero. *)
Lemma np_sum_single x : np_sum [x] = F64.add F64.zero x.
Proof.
  change (np_sum [x]) with (F64.add F64.zero (F64.add F64.zero x)).
  apply add_zero_idem.
Qed.

Lemma weighted_mean_single w e :
  F64.is_pos w = true →
  weighted_mean [w] [e] = F64.div (F64.add F64.zero (F64.mul w e)) w.
Proof.
  intros Hw. unfold weighted_mean, py_sum. cbn [zip_with foldl].
  by rewrite np_sum_single, (add_zero_pos w Hw).
Qed.

(** C1: when the intensities of an event sum to zero (in particular when
    no telescope contributes), the fusion raises nothing: the quotient is
    NaN or an infinity, and a [body] that returns has written that value
    into a record whose [success] is true.  ([body] returns for an empty
    [hillas_dict] whenever the geometric fit is there to be read.) *)
Theorem C1_zero_weight_fusion_is_not_an_error ev hd s :
  hillas_dict ev = Some hd →
  F64.is_zero (py_sum (weights hd)) = true →
  wrec s = TRow.defaults →
  (∀ value_tel, F64.is_finite (weighted_mean (weights hd) value_tel) = false) ∧
  (hd = [] →
     weighted_mean (weights hd) [] = F64.nan ∧
     (is_Some (reco_result ev) → (body ev s).1 = Ok ())) ∧
  (∀ s', body ev s = (Ok (), s') →
     ∃ row x y,
       iobuf s' = [row] ∧
       TRow.getitem RecoEvent.success row = Some (VBool true) ∧
       TRow.getitem RecoEvent.reco_energy row = Some (VFloat x) ∧
       TRow.getitem RecoEvent.score row = Some (VFloat y) ∧
       F64.is_finite x = false ∧ F64.is_finite y = false).
Proof.
  intros Hh Hz Hw. split; [intros v; by apply weighted_mean_zero_weight|].
  split.
  - intros ->. split; [done|]. intros [reco Hr]. rewrite body_spec by done.
    by rewrite (event_outcome_some _ _ _ Hr Hh).
  - intros s'. rewrite body_spec by done.
    destruct (reco_result ev) as [reco|] eqn:Hr.
    2: { by rewrite (event_outcome_no_fit _ Hr). }
    rewrite (event_outcome_some _ _ _ Hr Hh).
    destruct (energy_loop _ _ _) as [[energy_tel|e] l1]; [|done]. cbv zeta.
    destruct (score_loop _ _ _ _) as [[score_tel|e] l2]; [|done].
    intros [= <-]. eexists _, _, _. split; [reflexivity|].
    split; [reflexivity|].
    pose proof (weighted_mean_zero_weight _ energy_tel Hz) as Hx.
    pose proof (weighted_mean_zero_weight _ score_tel Hz) as Hy.
    split; [cbn; by rewrite (f32_not_finite _ Hx)|].
    split; [cbn; by rewrite (f32_not_finite _ Hy)|done].
Qed.

(** C4: with one contributing telescope of positive intensity [w], the
    fused energy is the double [(0 + w * e) / w] of that telescope's
    estimate [e], the fused score likewise, and these are the values that a
    [body] that returns has put into the record. *)
Theorem C4_single_contributor_quotient ev tel_id moments :
  hillas_dict ev = Some [(tel_id, moments)] →
  F64.is_pos (Hillas.intensity moments) = true →
  let w := Hillas.intensity moments in
  let hd := [(tel_id, moments)] in
  (∀ e, weighted_mean (weights hd) [e] =
          F64.div (F64.add F64.zero (F64.mul w e)) w) ∧
  (∀ reco e calls,
     reco_result ev = Some reco →
     energy_loop ev hd (h_max reco) = (Ok [e], calls) →
     fused_energy ev hd =
       (Ok (F64.div (F64.add F64.zero (F64.mul w e)) w), calls)) ∧
  (∀ reco reco_energy x calls,
     reco_result ev = Some reco →
     score_loop ev hd reco_energy (h_max reco) = (Ok [x], calls) →
     fused_score ev hd reco_energy =
       (Ok (F64.div (F64.add F64.zero (F64.mul w x)) w), calls)) ∧
  (∀ s s',
     wrec s = TRow.defaults →
     body ev s = (Ok (), s') →
     ∃ reco e x row,
       reco_result ev = Some reco ∧
       (energy_loop ev hd (h_max reco)).1 = Ok [e] ∧
       let reco_energy := F64.div (F64.add F64.zero (F64.mul w e)) w in
       (score_loop ev hd reco_energy (h_max reco)).1 = Ok [x] ∧
       iobuf s' = [row] ∧
       TRow.getitem RecoEvent.reco_energy row =
         Some (VFloat (F32.of_f64 reco_energy)) ∧
       TRow.getitem RecoEvent.score row =
         Some (VFloat (F32.of_f64
                 (F64.div (F64.add F64.zero (F64.mul w x)) w)))).
Proof.
  intros Hh Hw w hd. subst w hd. split; [|split; [|split]].
  - intros e. by apply weighted_mean_single.
  - intros reco e calls Hr E. rewrite (fused_energy_some _ _ _ Hr), E.
    by rewrite <- (weighted_mean_single _ _ Hw).
  - intros reco reco_energy x calls Hr E.
    rewrite (fused_score_some _ _ _ _ Hr), E.
    by rewrite <- (weighted_mean_single _ _ Hw).
  - intros s s' Hs. rewrite body_spec by done.
    destruct (reco_result ev) as [reco|] eqn:Hr.
    2: { by rewrite (event_outcome_no_fit _ Hr). }
    rewrite (event_outcome_some _ _ _ Hr Hh).
    destruct (energy_loop ev _ _) as [[energy_tel|e] l1] eqn:E1; [|done].
    assert (Hlen : length energy_tel = 1%nat).
    { eapply (mapM_ok_length _ [_]). unfold energy_loop in E1. by rewrite E1. }
    destruct energy_tel as [|e [|??]]; try done. cbv zeta.
    change (weights [(tel_id, moments)]) with [Hillas.intensity moments].
    rewrite (weighted_mean_single _ _ Hw).
    destruct (score_loop ev _ _ _) as [[score_tel|e'] l2] eqn:E2; [|done].
    assert (Hlen2 : length score_tel = 1%nat).
    { eapply (mapM_ok_length _ [_]). unfold score_loop in E2. by rewrite E2. }
    destruct score_tel as [|x [|??]]; try done.
    rewrite (weighted_mean_single _ _ Hw).
    intros [= <-]. exists reco, e, x. eexists. split; [done|].
    split; [by rewrite E1|]. cbv zeta. rewrite E2. split; [done|].
    split; [reflexivity|]. split; reflexivity.
Qed.

(** ** Missing models *)

Lemma rows_for_elem evs rows ev :
  rows_for evs rows → ev ∈ evs → is_Some (event_row ev).
Proof.
  intros Hrows [i Hi]%list_elem_of_lookup.
  destruct (rows_for_lookup _ _ _ _ Hrows Hi) as (row & _ & ->). by eexists.
Qed.

Lemma event_row_no_model ev hd tel_id moments cam_id :
  hillas_dict ev = Some hd →
  (tel_id, moments) ∈ hd →
  subarray_tel ev !! tel_id = Some cam_id →
  regressor !! cam_id = None ∨ classifier !! cam_id = None →
  ∃ e calls, event_outcome ev = (Raise e, calls).
Proof.
  intros Hh Hin Hcam Hmodel. destruct (reco_result ev) as [reco|] eqn:Hr.
  2: { rewrite (event_outcome_no_fit _ Hr). by eauto. }
  rewrite (event_outcome_some _ _ _ Hr Hh).
  destruct (energy_loop _ _ _) as [[energy_tel|e] l1] eqn:E1; [|by eauto].
  cbv zeta.
  destruct (score_loop _ _ _ _) as [[score_tel|e] l2] eqn:E2; [|by eauto].
  exfalso. destruct Hmodel as [Hm|Hm].
  - destruct (energy_loop_no_model ev hd (h_max reco)
                _ _ _ Hin Hcam Hm) as [e He].
    by rewrite E1 in He.
  - destruct (score_loop_no_model ev hd (weighted_mean (weights hd) energy_tel)
                (h_max reco) _ _ _ Hin Hcam Hm) as [e He].
    by rewrite E2 in He.
Qed.

(** C2: an event with a telescope whose camera type has no model in one of
    the two banks is not fused without it: [body] raises, no record is
    appended for the event, and a run that reads the event ends with the
    exception. *)
Theorem C2_missing_model_ends_the_run ev hd tel_id moments cam_id s :
  hillas_dict ev = Some hd →
  (tel_id, moments) ∈ hd →
  subarray_tel ev !! tel_id = Some cam_id →
  regressor !! cam_id = None ∨ classifier !! cam_id = None →
  wrec s = TRow.defaults →
  (∃ e s', body ev s = (Raise e, s') ∧ table s' = table s) ∧
  (∀ args r sf,
     main args init = (r, sf) → ev ∈ yielded (log sf) → ∃ e, r = Raise e).
Proof.
  intros Hh Hin Hcam Hmodel Hw.
  destruct (event_row_no_model _ _ _ _ _ Hh Hin Hcam Hmodel) as (e & calls & Eo).
  split.
  - exists e, (emit calls s). by rewrite body_spec, Eo.
  - intros args r sf E Hy. destruct r as [[]|e']; [|by eexists].
    apply main_inv in E as (fl & _ & _ & _ & Hrows & _).
    destruct (rows_for_elem _ _ _ Hrows Hy) as [row Hrow].
    by rewrite (event_row_none _ _ _ Eo) in Hrow.
Qed.

(** ** The order of the two estimates *)

Lemma score_loop_ok_calls ev hd reco_energy h score_tel :
  (score_loop ev hd reco_energy h).1 = Ok score_tel →
  Forall2 (λ kv a, ∃ cam_id,
             a = ADecision cam_id (score_features reco_energy kv.2 h))
    hd (score_loop ev hd reco_energy h).2.
Proof.
  unfold score_loop, decision_function. revert score_tel.
  induction hd as [|[tel_id moments] hd IH]; intros score_tel; [constructor|].
  rewrite mapM_cons. rewrite !subscript_bind.
  destruct (subarray_tel ev !! tel_id) as [cam_id|]; [|done].
  rewrite !subscript_bind.
  destruct (classifier !! cam_id) as [model|]; [|done].
  cbn [fst snd]. destruct (model _) as [y|e]; [|done].
  destruct (mapM _ hd) as [[k|e] lk]; cbn [fst snd] in *; [|done].
  intros _. constructor; [by eexists|]. by eapply IH.
Qed.

(** C5: the calls [body] makes are first the regressor calls, then the
    classifier calls, and every classifier call is made on a feature vector
    that starts with [log10] of the one fused energy of the event: when
    [body] returns, one call per telescope, on the features of that
    telescope, and the record keeps that same energy. *)
Theorem C5_classifier_sees_fused_energy ev hd s r s' :
  hillas_dict ev = Some hd →
  wrec s = TRow.defaults →
  body ev s = (r, s') →
  ∃ pcalls dcalls tail,
    log s' = log s ++ pcalls ++ dcalls ++ tail ∧
    Forall is_predict pcalls ∧
    Forall (λ a, ¬ is_call a) tail ∧
    match fused_energy ev hd with
    | (Ok reco_energy, _) =>
      Forall (is_decision_on (log10 reco_energy)) dcalls ∧
      (r = Ok () →
         length pcalls = length hd ∧
         (∃ reco,
            reco_result ev = Some reco ∧
            Forall2 (λ kv a, ∃ cam_id,
                       a = ADecision cam_id
                             (score_features reco_energy kv.2 (h_max reco)))
              hd dcalls) ∧
         ∃ row,
           tail = [AFlush; AAppend row] ∧
           TRow.getitem RecoEvent.reco_energy row =
             Some (VFloat (F32.of_f64 reco_energy)))
    | (Raise _, _) => dcalls = [] ∧ tail = [] ∧ r ≠ Ok ()
    end.
Proof.
  intros Hh Hw. rewrite body_spec by done.
  destruct (reco_result ev) as [reco|] eqn:Hr.
  2: { rewrite (event_outcome_no_fit _ Hr). unfold fused_energy.
       rewrite Hr, attributes_bind. intros [= <- <-]. exists [], [], [].
       cbn. by rewrite app_nil_r. }
  rewrite (event_outcome_some _ _ _ Hr Hh), (fused_energy_some _ _ _ Hr).
  pose proof (energy_loop_log ev hd (h_max reco)) as H1.
  pose proof (energy_loop_calls ev hd (h_max reco)) as H0.
  destruct (energy_loop _ _ _) as [[energy_tel|e] l1]; cbn [fst snd] in *.
  2: { intros [= <- <-]. exists l1, [], []. cbn. by rewrite app_nil_r. }
  cbv zeta.
  set (reco_energy := weighted_mean (weights hd) energy_tel).
  pose proof (score_loop_log ev hd reco_energy (h_max reco)) as H2.
  pose proof (score_loop_ok_calls ev hd reco_energy (h_max reco))
    as H3.
  destruct (score_loop _ _ _ _) as [[score_tel|e] l2]; cbn [fst snd] in *.
  - intros [= <- <-]. eexists l1, l2, _. cbn [log].
    split; [by rewrite <- !app_assoc|]. split; [done|].
    split; [repeat constructor; by intros []|]. split; [done|].
    intros _. split; [by eapply H0|].
    split; [exists reco; split; [done|by eapply H3]|]. by eexists.
  - intros [= <- <-]. exists l1, l2, []. cbn [log emit].
    split; [by rewrite app_nil_r|]. by repeat split.
Qed.

(** ** Cancellation *)

Lemma event_row_length ev row :
  event_row ev = Some row → length row = length RecoEvent.columns.
Proof.
  intros (reco & _ & [[_ ->]|(hd & x & y & _ & ->)])%event_row_cases;
    unfold failure_row, success_row, TRow.setitem; cbv zeta;
    by rewrite !length_insert.
Qed.

Lemma rows_for_complete evs rows :
  rows_for evs rows →
  Forall (λ row, length row = length RecoEvent.columns) rows.
Proof.
  intros Hrows. apply Forall_lookup_2. intros i row Hi.
  pose proof (rows_for_length _ _ Hrows) as Hlen.
  destruct (lookup_lt_is_Some_2 evs i) as [ev Hev].
  { rewrite Hlen. by eapply lookup_lt_Some. }
  destruct (rows_for_lookup _ _ _ _ Hrows Hev) as (row' & Hi' & Hrow).
  assert (row' = row) as -> by congruence. by eapply event_row_length.
Qed.

(** C8: in a run that saw the flag set and returned, every reading of the
    flag came right after an [append] (inner loop) or right after the event
    loop of a file (outer loop); after the first reading that found the
    flag set nothing was done but the outer reading, the final [flush] and
    the report; the buffer is empty, and storage holds one whole record for
    each event that was started, in order, and no other row. *)
Theorem C8_cancellation_keeps_whole_rows args s :
  main args init = (Ok (), s) →
  stop s = true →
  placed None (log s) ∧
  (∃ l0 lvl tail,
     log s = l0 ++ AInspect lvl true :: tail ∧ unseen l0 ∧
     Forall is_wrapup tail ∧ AFlush ∈ tail ∧
     yielded l0 = yielded (log s)) ∧
  iobuf s = [] ∧
  rows_for (yielded (log s)) (disk s) ∧
  length (disk s) = length (yielded (log s)) ∧
  Forall (λ row, length row = length RecoEvent.columns) (disk s).
Proof.
  intros E Hs. apply main_inv in E as (fl & _ & _ & Hio & Hrows & _ & Hpl & Hstop).
  rewrite Hs in Hstop. destruct Hstop as (l0 & lvl & tail & Hlog & Hl0 & Htail & Hfl).
  split; [done|]. split.
  { exists l0, lvl, tail. do 4 (split; [done|]).
    rewrite Hlog. change (AInspect lvl true :: tail) with ([AInspect lvl true] ++ tail).
    rewrite !yielded_app, (yielded_wrapup tail Htail). cbn. by rewrite app_nil_r. }
  split; [done|]. split; [done|].
  split; [symmetry; by apply rows_for_length|by eapply rows_for_complete].
Qed.

(** ** Sorted input *)

Lemma filenames_sorted args fl :
  filenames args = Some fl →
  Sorted String.le fl ∧
  fl ≡ₚ flat_map (λ f, glob (indir args +:+ "/" +:+ f))
          (default [] (infile_list args)).
Proof.
  unfold filenames. destruct (truthy _); [|done]. intros [= <-].
  split; [apply (Sorted_merge_sort _)|apply merge_sort_Permutation].
Qed.

(** ** More on the rows of a run *)

(** [gammaness] is assigned nowhere, and [ErrEstPos] and [ErrEstDir] are
    assigned nothing but NaN (lines 236-237): in every row of every run the
    three columns hold NaN. *)
Theorem reserved_columns_stay_nan args r s row :
  main args init = (r, s) →
  row ∈ table s →
  TRow.getitem RecoEvent.gammaness row = Some (VFloat F64.nan) ∧
  TRow.getitem RecoEvent.ErrEstPos row = Some (VFloat F64.nan) ∧
  TRow.getitem RecoEvent.ErrEstDir row = Some (VFloat F64.nan).
Proof.
  intros E Hrow. apply main_done in E as (done & Hrows & _).
  destruct (rows_for_row _ _ _ Hrows Hrow) as (ev & _ & Hev).
  by apply event_row_cases in Hev
    as (reco & _ & [[_ ->]|(hd & x & y & _ & ->)]).
Qed.

(** In every run the row at the place of an event is the row of that event:
    its [success] tells whether the event came with Hillas moments, it
    carries the event's identifiers and true energy, and for an event with
    moments the telescope counts of that event. *)
Theorem row_belongs_to_its_event args r s i ev row :
  main args init = (r, s) →
  yielded (log s) !! i = Some ev →
  table s !! i = Some row →
  TRow.getitem RecoEvent.success row =
    Some (VBool (bool_decide (is_Some (hillas_dict ev)))) ∧
  TRow.getitem RecoEvent.obs_id row = Some (VInt (wrap 16 (r1_obs_id ev))) ∧
  TRow.getitem RecoEvent.event_id row = Some (VInt (wrap 32 (r1_event_id ev))) ∧
  TRow.getitem RecoEvent.mc_energy row =
    Some (VFloat (F32.of_f64 (to_value "TeV" (mc_energy (mc ev))))) ∧
  ∀ hd, hillas_dict ev = Some hd →
    TRow.getitem RecoEvent.NTels_trig row =
      Some (VInt (wrap 16 (Z.of_nat (length (dl0_tels_with_data ev))))) ∧
    TRow.getitem RecoEvent.NTels_reco row =
      Some (VInt (wrap 16 (Z.of_nat (length hd)))) ∧
    TRow.getitem RecoEvent.NTels_reco_lst row =
      Some (VInt (wrap 16 (LST (n_tels ev)))) ∧
    TRow.getitem RecoEvent.NTels_reco_mst row =
      Some (VInt (wrap 16 (MST (n_tels ev)))) ∧
    TRow.getitem RecoEvent.NTels_reco_sst row =
      Some (VInt (wrap 16 (SST (n_tels ev)))).
Proof.
  intros E Hi Ht. pose proof (run_row_lookup _ _ _ _ _ _ E Hi Ht) as Hev.
  apply event_row_cases in Hev
    as (reco & _ & [[Hh ->]|(hd & x & y & Hh & ->)]); rewrite Hh.
  - do 4 (split; [reflexivity|]). by intros hd.
  - rewrite bool_decide_eq_true_2 by by eexists.
    do 4 (split; [reflexivity|]). intros hd' [= <-]. by repeat split.
Qed.

Lemma wrap_in_range w z : 0 < w → in_range w z → wrap w z = z.
Proof.
  unfold wrap, in_range. intros Hw Hz.
  assert (2 ^ w = 2 * 2 ^ (w - 1)) as ->.
  { rewrite <- Z.pow_succ_r by lia. f_equal. lia. }
  rewrite Z.mod_small; lia.
Qed.

(** Identifiers that fit their cells are stored as they are: in every run
    the row at the place of an event holds them, and a run that returns has
    such a row in storage for every event it read. *)
Theorem identifiers_in_range_are_kept args r s i ev :
  main args init = (r, s) →
  yielded (log s) !! i = Some ev →
  in_range 16 (r1_obs_id ev) →
  in_range 32 (r1_event_id ev) →
  (∀ row, table s !! i = Some row →
     TRow.getitem RecoEvent.obs_id row = Some (VInt (r1_obs_id ev)) ∧
     TRow.getitem RecoEvent.event_id row = Some (VInt (r1_event_id ev))) ∧
  (r = Ok () →
     ∃ row, disk s !! i = Some row ∧
       TRow.getitem RecoEvent.obs_id row = Some (VInt (r1_obs_id ev)) ∧
       TRow.getitem RecoEvent.event_id row = Some (VInt (r1_event_id ev))).
Proof.
  intros E Hi Ho He.
  assert (Hcells : ∀ row, event_row ev = Some row →
     TRow.getitem RecoEvent.obs_id row = Some (VInt (r1_obs_id ev)) ∧
     TRow.getitem RecoEvent.event_id row = Some (VInt (r1_event_id ev))).
  { intros row Hev.
    rewrite <- (wrap_in_range 16 (r1_obs_id ev)) by done.
    rewrite <- (wrap_in_range 32 (r1_event_id ev)) by done.
    by apply event_row_cases in Hev
      as (reco & _ & [[_ ->]|(hd & x & y & _ & ->)]). }
  split.
  - intros row Ht. apply Hcells. by eapply run_row_lookup.
  - intros ->. destruct (run_row_exists _ _ _ _ E Hi) as (row & Hd & Hev).
    exists row. split; [done|]. by apply Hcells.
Qed.

(** ** Readings of the flag *)

(** [tick] counts the readings.  A loop that returns with the flag clear has
    seen no interrupt at any of its readings; one that returns with the flag
    set has seen the first interrupt at its last reading. *)
Lemma event_loop_ticks evs : ∀ s s',
  wrec s = TRow.defaults → stop s = false →
  event_loop evs s = (Ok (), s') →
  if stop s'
  then ∃ k, tick s' = S k ∧ (tick s ≤ k)%nat ∧ sigint k = true ∧
            ∀ j, (tick s ≤ j < k)%nat → sigint j = false
  else (tick s ≤ tick s')%nat ∧
       ∀ j, (tick s ≤ j < tick s')%nat → sigint j = false.
Proof.
  induction evs as [|ev evs IH]; intros s s' Hw Hs E.
  - cbn in E. injection E as <-. rewrite Hs. split; [done|]. intros j ?. lia.
  - rewrite event_loop_cons in E by done.
    destruct (event_outcome ev) as [[row|e] calls]; [|done].
    cbv zeta in E. rewrite Hs in E. cbn [orb] in E.
    destruct (sigint (tick s)) eqn:Esig.
    + injection E as <-. cbn [stop tick]. exists (tick s).
      do 3 (split; [done|]). intros j ?. lia.
    + apply IH in E; [|done..]. cbn [tick] in E.
      destruct (stop s').
      * destruct E as (k & Ht & Hk & Hsig & Hj). exists k.
        split; [done|]. split; [lia|]. split; [done|].
        intros j Hjk. destruct (decide (j = tick s)) as [->|]; [done|].
        apply Hj. lia.
      * destruct E as [Ht Hj]. split; [lia|].
        intros j Hjk. destruct (decide (j = tick s)) as [->|]; [done|].
        apply Hj. lia.
Qed.

Lemma file_loop_ticks fl : ∀ s s',
  wrec s = TRow.defaults → stop s = false →
  file_loop fl s = (Ok (), s') →
  if stop s'
  then ∃ k, (tick s ≤ k)%nat ∧ sigint k = true ∧
            (∀ j, (tick s ≤ j < k)%nat → sigint j = false) ∧
            (tick s' = S k ∨ tick s' = S (S k))
  else (tick s ≤ tick s')%nat ∧
       ∀ j, (tick s ≤ j < tick s')%nat → sigint j = false.
Proof.
  induction fl as [|f rest IH]; intros s s' Hw Hs E.
  - cbn in E. injection E as <-. rewrite Hs. split; [done|]. intros j ?. lia.
  - rewrite file_loop_cons in E.
    destruct (event_loop _ _) as [[[]|e] s1] eqn:E1; [|done].
    pose proof (event_loop_inv (events_of f) (emit [ASource f] s) _ _ Hw Hs E1)
      as (? & ? & ? & _ & _ & Hw1 & _).
    apply event_loop_ticks in E1; [|done..]. cbn [tick emit] in E1.
    cbv zeta in E. destruct (stop s1) eqn:Es1.
    + cbn [orb] in E. injection E as <-. cbn [stop tick].
      destruct E1 as (k & Ht & Hk & Hsig & Hj). exists k.
      do 3 (split; [done|]). right. by rewrite Ht.
    + cbn [orb] in E. destruct E1 as [Ht1 Hj1].
      destruct (sigint (tick s1)) eqn:Esig.
      * injection E as <-. cbn [stop tick]. exists (tick s1).
        do 3 (split; [done|]). by left.
      * apply IH in E; [|done..]. cbn [tick] in E.
        destruct (stop s').
        -- destruct E as (k & Hk & Hsig & Hj & Ht). exists k.
           split; [lia|]. split; [done|]. split; [|done].
           intros j Hjk. destruct (decide (j < tick s1)%nat); [apply Hj1; lia|].
           destruct (decide (j = tick s1)) as [->|]; [done|]. apply Hj. lia.
        -- destruct E as [Ht Hj]. split; [lia|].
           intros j Hjk. destruct (decide (j < tick s1)%nat); [apply Hj1; lia|].
           destruct (decide (j = tick s1)) as [->|]; [done|]. apply Hj. lia.
Qed.

Lemma main_file_loop args r s :
  main args init = (r, s) →
  (∃ fl l0, startup args = (Ok fl, l0) ∧ fl ≠ [] ∧
         match r with
         | Ok _ =>
           ∃ s1, file_loop fl (loaded l0) = (Ok (), s1) ∧
                 stop s = stop s1 ∧ tick s = tick s1 ∧
                 disk s = table s1 ∧ iobuf s = []
         | Raise e => file_loop fl (loaded l0) = (Raise e, s)
         end) ∨
  (yielded (log s) = [] ∧ ∃ e, r = Raise e).
Proof.
  intros E. pose proof E as E0. rewrite main_eq in E.
  destruct (startup args) as [[fl|e0] l0] eqn:Es.
  - destruct (startup_ok _ _ _ Es) as [_ Hne].
    destruct (file_loop _ _) as [[[]|e] s1] eqn:E1; injection E as <- <-; left;
      exists fl, l0; do 2 (split; [done|]); [|done].
    by exists s1.
  - injection E as <- <-. right.
    apply main_inv in E0 as [(Hy & _)|(done & ev & Hy & Hrows & _)].
    + split; [done|by eexists].
    + exfalso. pose proof (startup_log args) as Hst. rewrite Es in Hst.
      destruct (is_startup_quiet _ Hst) as (Hy0 & _). cbn in Hy, Hy0.
      rewrite Hy0 in Hy. by destruct done.
Qed.

(** After the reading that first sees an interrupt, a run that returns
    reads the flag at most once more; a run that returns with the flag clear
    saw no interrupt at any of its readings. *)
Theorem cancellation_is_prompt args s :
  main args init = (Ok (), s) →
  if stop s
  then ∃ k, sigint k = true ∧ (∀ j, (j < k)%nat → sigint j = false) ∧
            (tick s = S k ∨ tick s = S (S k))
  else ∀ j, (j < tick s)%nat → sigint j = false.
Proof.
  intros E0. pose proof E0 as E.
  apply main_file_loop in E as [(fl & l0 & _ & _ & s1 & E & Hs & Ht & _)|H].
  2: { by destruct H as (_ & e & ?). }
  apply file_loop_ticks in E; [|done..]. rewrite Hs, Ht. cbn [tick loaded] in E.
  destruct (stop s1).
  - destruct E as (k & _ & Hsig & Hj & Hk). exists k.
    split; [done|]. split; [|done]. intros j ?. apply Hj. lia.
  - destruct E as [_ Hj]. intros j ?. apply Hj. lia.
Qed.

(** Without an interrupt a run that returns has read every event of every
    input file and stored one record for each. *)
Theorem no_interrupt_no_event_left args s :
  (∀ k, sigint k = false) →
  main args init = (Ok (), s) →
  stop s = false ∧
  ∃ fl, filenames args = Some fl ∧
        yielded (log s) = all_events fl ∧
        rows_for (all_events fl) (disk s).
Proof.
  intros Hsig E.
  assert (Hs : stop s = false).
  { pose proof E as E'.
    apply main_file_loop in E' as [(fl & l0 & _ & _ & s1 & E' & Hs & _)|H].
    2: { by destruct H as (_ & e & ?). }
    apply file_loop_ticks in E'; [|done..]. rewrite Hs.
    destruct (stop s1); [|done].
    destruct E' as (k & _ & Hk & _). by rewrite Hsig in Hk. }
  split; [done|].
  apply main_inv in E as (fl & Hfl & _ & _ & Hrows & _ & _ & Hstop).
  rewrite Hs in Hstop. exists fl. split; [done|]. split; [done|].
  by rewrite <- Hstop.
Qed.

(** ** What an aborted run leaves *)

(** A loop either leaves the table as it found it or leaves exactly the
    last appended row in the buffer. *)
Lemma event_loop_buffer evs : ∀ s r s',
  wrec s = TRow.defaults →
  event_loop evs s = (r, s') →
  (disk s' = disk s ∧ iobuf s' = iobuf s) ∨ (∃ row, iobuf s' = [row]).
Proof.
  induction evs as [|ev evs IH]; intros s r s' Hw E.
  - cbn in E. injection E as <- <-. by left.
  - rewrite event_loop_cons in E by done.
    destruct (event_outcome ev) as [[row|e] calls].
    + cbv zeta in E. destruct (stop s || sigint (tick s)).
      * injection E as <- <-. right. by eexists.
      * apply IH in E; [|done]. cbn [iobuf] in E.
        destruct E as [[_ Hio]|Hrow]; [|by right].
        right. exists row. by rewrite Hio.
    + injection E as <- <-. by left.
Qed.

Lemma file_loop_buffer fl : ∀ s r s',
  wrec s = TRow.defaults → stop s = false →
  file_loop fl s = (r, s') →
  (disk s' = disk s ∧ iobuf s' = iobuf s) ∨ (∃ row, iobuf s' = [row]).
Proof.
  induction fl as [|f rest IH]; intros s r s' Hw Hs E.
  - cbn in E. injection E as <- <-. by left.
  - rewrite file_loop_cons in E.
    destruct (event_loop _ _) as [r1 s1] eqn:E1.
    pose proof (event_loop_inv (events_of f) (emit [ASource f] s) _ _ Hw Hs E1)
      as (? & ? & ? & _ & _ & Hw1 & _).
    apply event_loop_buffer in E1; [|done]. cbn [disk iobuf emit] in E1.
    destruct r1 as [[]|e]; [|by injection E as <- <-].
    cbv zeta in E. destruct (stop s1 || sigint (tick s1)) eqn:Eseen.
    + by injection E as <- <-.
    + apply IH in E; [|done..]. cbn [disk iobuf] in E.
      destruct E as [[Hd Hio]|Hrow]; [|by right].
      destruct E1 as [[Hd1 Hio1]|[row Hrow]].
      * left. by rewrite Hd, Hio.
      * right. exists row. by rewrite Hio.
Qed.

(** When a run ends with an exception raised by an event, every event
    before it has its record, in order, but the record of the last of them
    is still in the buffer: storage holds one record less. *)
Theorem aborted_run_keeps_last_row_buffered args e s :
  main args init = (Raise e, s) →
  yielded (log s) ≠ [] →
  ∃ done ev,
    yielded (log s) = done ++ [ev] ∧
    event_row ev = None ∧
    rows_for done (disk s ++ iobuf s) ∧
    length (iobuf s) = Nat.min 1 (length done) ∧
    length (disk s) = Nat.pred (length done).
Proof.
  intros E Hy. pose proof E as E0.
  apply main_inv in E as [(Hy0 & _)|(evs & ev & Hyd & Hrows & Hnone & _)];
    [done|].
  exists evs, ev. do 3 (split; [done|]).
  apply rows_for_length in Hrows. unfold table in Hrows.
  rewrite length_app in Hrows.
  apply main_file_loop in E0 as [(fl & l0 & _ & _ & E0)|[Hy0 _]];
    [|by destruct Hy].
  apply file_loop_buffer in E0; [|done..].
  destruct E0 as [[Hd Hio]|[row Hio]].
  - cbn in Hd, Hio. rewrite Hd, Hio in *. cbn [length] in *. by rewrite Hrows.
  - rewrite Hio in *. cbn [length] in *. split; lia.
Qed.

(** ** The guard on the input files *)







(** ** Files matched more than once *)

(** Sorting does not remove a file that several patterns match: a run that
    returns without having seen the flag has one record for every event of
    every match of every pattern. *)
Theorem one_record_per_event_per_match args s :
  main args init = (Ok (), s) →
  stop s = false →
  let matches :=
    flat_map (λ f, glob (indir args +:+ "/" +:+ f))
      (default [] (infile_list args)) in
  yielded (log s) ≡ₚ flat_map events_of matches ∧
  length (disk s) = length (flat_map events_of matches).
Proof.
  intros E Hs matches.
  apply main_inv in E as (fl & Hfl & _ & _ & Hrows & _ & _ & Hstop).
  rewrite Hs in Hstop.
  destruct (filenames_sorted _ _ Hfl) as [_ Hperm]. fold matches in Hperm.
  assert (Hy : yielded (log s) ≡ₚ flat_map events_of matches).
  { rewrite Hstop. unfold all_events. by rewrite Hperm. }
  split; [done|]. by rewrite <- (rows_for_length _ _ Hrows), Hy.
Qed.

(** ** Missing telescopes *)

(** A telescope of [hillas_dict] that the subarray description or
    [impact_dict] does not know makes [body] raise: no record is appended
    for the event. *)
Theorem unknown_telescope_raises ev hd tel_id moments s :
  hillas_dict ev = Some hd →
  (tel_id, moments) ∈ hd →
  subarray_tel ev !! tel_id = None ∨ impact_dict ev !! tel_id = None →
  wrec s = TRow.defaults →
  event_row ev = None ∧
  ∃ e s', body ev s = (Raise e, s') ∧ table s' = table s.
Proof.
  intros Hh Hin Hmiss Hw.
  assert (Eo : ∃ e calls, event_outcome ev = (Raise e, calls)).
  { destruct (reco_result ev) as [reco|] eqn:Hr.
    2: { rewrite (event_outcome_no_fit _ Hr). by eauto. }
    assert (∃ e, (energy_loop ev hd (h_max reco)).1 = Raise e) as [e He].
    { eapply mapM_raise; [exact Hin|]. cbn beta iota. rewrite !subscript_bind.
      destruct (subarray_tel ev !! tel_id) as [cam_id|]; [|by eexists].
      rewrite !subscript_bind.
      destruct (regressor !! cam_id) as [model|]; [|by eexists].
      rewrite !subscript_bind. destruct Hmiss as [?| ->]; [done|by eexists]. }
    rewrite (event_outcome_some _ _ _ Hr Hh).
    destruct (energy_loop _ _ _) as [[?|e'] l1]; cbn in He; [done|].
    by eauto. }
  destruct Eo as (e & calls & Eo). split; [by eapply event_row_none|].
  exists e, (emit calls s). by rewrite body_spec, Eo.
Qed.

(** ** The names of the model files *)

Lemma string_app_assoc (p q s : string) : (p +:+ q) +:+ s = p +:+ q +:+ s.
Proof.
  induction p as [|c p IH]; [done|].
  change (String c ((p +:+ q) +:+ s) = String c (p +:+ q +:+ s)).
  by rewrite IH.
Qed.

Lemma fmt_prepend_app p q r :
  fmt_prepend p (fmt_prepend q r) = fmt_prepend (p +:+ q) r.
Proof. destruct r; cbn; try done. by rewrite string_app_assoc. Qed.

(** Text without braces is copied. *)
Lemma format_go_text kw d rest :
  brace_free d = true →
  format_go kw None (d +:+ rest) = fmt_prepend d (format_go kw None rest).
Proof.
  induction d as [|c d IH]; cbn [brace_free].
  - intros _. change ("" +:+ rest) with rest.
    by destruct (format_go kw None rest).
  - intros [[Ho Hc]%andb_prop Hd]%andb_prop.
    apply negb_true_iff, bool_decide_eq_false in Ho.
    apply negb_true_iff, bool_decide_eq_false in Hc.
    change (String c d +:+ rest) with (String c (d +:+ rest)).
    cbn [format_go]. rewrite !decide_False by done.
    by rewrite (IH Hd), fmt_prepend_app.
Qed.

(** With directory names free of braces the two templates are the model
    file names of the forced mode, in their directories, and still hold the
    field [{cam_id}] for the camera type; with the tail cut forced they do
    not depend on [--mode]. *)
Theorem model_file_templates a :
  brace_free (classifier_dir a) = true →
  brace_free (regressor_dir a) = true →
  clf_file a =
    FmtOk (classifier_dir a +:+ "/classifier_" +:+ force_mode a
           +:+ "_{cam_id}_AdaBoostClassifier.pkl.gz") ∧
  reg_file a =
    FmtOk (regressor_dir a +:+ "/regressor_" +:+ force_mode a
           +:+ "_{cam_id}_AdaBoostRegressor.pkl.gz") ∧
  (force_tailcut_for_extended_cleaning a = true → force_mode a = "tail").
Proof.
  intros Hc Hr.
  unfold clf_file, reg_file, classifier_files, regressor_files, format.
  rewrite !format_go_text by done. split; [|split].
  - vm_compute format_go. reflexivity.
  - vm_compute format_go. reflexivity.
  - unfold force_mode. by intros ->.
Qed.

Lemma lone_brace_format kw d1 d2 rest :
  brace_free d1 = true →
  (∀ d, d2 ≠ String "}" d) →
  (∀ d, rest ≠ String "}" d) →
  format ((d1 +:+ "}" +:+ d2) +:+ rest) kw = FmtValueError.
Proof.
  intros H1 H2 H3. unfold format.
  rewrite !string_app_assoc. rewrite format_go_text by done.
  change ("}" +:+ d2 +:+ rest) with (String "}" (d2 +:+ rest)).
  cbn [format_go]. rewrite decide_False, decide_True by done.
  destruct d2 as [|c d2].
  - change ("" +:+ rest) with rest. destruct rest as [|c rest]; [done|].
    rewrite decide_False; [done|]. intros ->. by eapply H3.
  - change (String c d2 +:+ rest) with (String c (d2 +:+ rest)). cbv beta iota.
    rewrite decide_False; [done|]. intros ->. by eapply H2.
Qed.

(** A closing brace that stands alone in the name of the classifier
    directory makes the formatting of [clf_file] fail: a run that got past
    the guard on the input files ends with [ValueError] at line 73, before
    a model is loaded, the output file opened or anything logged. *)
Theorem lone_brace_in_directory args filenamelist d1 d2 :
  filenames args = Some filenamelist →
  filenamelist ≠ [] →
  classifier_dir args = d1 +:+ "}" +:+ d2 →
  brace_free d1 = true →
  (∀ d, d2 ≠ String "}" d) →
  clf_file args = FmtValueError ∧
  main args init = (Raise ValueError, init).
Proof.
  intros Hf Hne Hd H1 H2.
  assert (Hfmt : clf_file args = FmtValueError).
  { unfold clf_file, classifier_files. rewrite Hd.
    by apply lone_brace_format. }
  split; [done|]. rewrite main_eq. unfold startup. rewrite Hf.
  destruct filenamelist as [|f fl]; [done|].
  assert (Hs : str_format (classifier_files args) (clf_kwargs args) =
                (Raise ValueError, [])).
  { unfold str_format. unfold clf_file in Hfmt. by rewrite Hfmt. }
  by rewrite wbind_pair, Hs.
Qed.

End Program.

(** ** Sorted input and determinism *)

Lemma flat_map_pointwise_perm {A B} (f g : A → list B) (l : list A) :
  (∀ x, f x ≡ₚ g x) → flat_map f l ≡ₚ flat_map g l.
Proof.
  intros Hfg. induction l as [|x l IH]; [done|].
  cbn. by rewrite (Hfg x), IH.
Qed.

(** The order in which the file system lists the matches does not matter. *)
Lemma filenames_perm (glob glob' : string → list string) args :
  (∀ pattern, glob' pattern ≡ₚ glob pattern) →
  filenames glob' args = filenames glob args.
Proof.
  intros Hg. unfold filenames. destruct (truthy _); [|done]. f_equal.
  apply (Sorted_unique String.le).
  - apply (Sorted_merge_sort _).
  - apply (Sorted_merge_sort _).
  - rewrite !merge_sort_Permutation. by apply flat_map_pointwise_perm.
Qed.

(** C3: the outcome of a run does not depend on the order in which the file
    system lists the matches.  A run that returns has put into storage
    exactly one record per event that the event sources yielded, in the
    order of arrival, the files being read in sorted order of their names
    and every file in the order of its source; without cancellation these
    are all the events of all the files.  A run that an event ends with an
    exception has a record for every event but that last one: one record
    less than events yielded. *)
Theorem C3_one_record_per_event_in_order
    log10 angular_separation to_value regressor classifier
    (glob : string → list string) events_of format_other load_error
    open_error cutflow_zero_division sigint args r s :
  main log10 angular_separation to_value regressor classifier
    glob events_of format_other load_error open_error cutflow_zero_division
    sigint args init = (r, s) →
  (∀ glob' : string → list string,
     (∀ pattern, glob' pattern ≡ₚ glob pattern) →
     main log10 angular_separation to_value regressor classifier
       glob' events_of format_other load_error open_error
       cutflow_zero_division sigint args init = (r, s)) ∧
  match r with
  | Ok _ =>
    ∃ filenamelist,
      filenames glob args = Some filenamelist ∧
      Sorted String.le filenamelist ∧
      filenamelist ≡ₚ
        flat_map (λ f, glob (indir args +:+ "/" +:+ f))
          (default [] (infile_list args)) ∧
      iobuf s = [] ∧
      rows_for log10 angular_separation to_value regressor classifier
        (yielded (log s)) (disk s) ∧
      length (disk s) = length (yielded (log s)) ∧
      yielded (log s) `prefix_of` all_events events_of filenamelist ∧
      (stop s = false → yielded (log s) = all_events events_of filenamelist)
  | Raise e =>
    (yielded (log s) = [] ∧ table s = []) ∨
    (∃ done ev,
       yielded (log s) = done ++ [ev] ∧
       rows_for log10 angular_separation to_value regressor classifier
         done (table s) ∧
       event_row log10 angular_separation to_value regressor classifier ev
         = None ∧
       (event_outcome log10 angular_separation to_value regressor classifier
          ev).1 = Raise e ∧
       S (length (table s)) = length (yielded (log s)))
  end.
Proof.
  intros E. split.
  { intros glob' Hg. rewrite <- E. rewrite !main_eq. unfold startup.
    by rewrite (filenames_perm glob glob' args Hg). }
  apply main_inv in E. destruct r as [[]|e].
  - destruct E as (fl & Hfl & _ & Hio & Hrows & Hpre & _ & Hstop).
    exists fl. split; [done|].
    destruct (filenames_sorted _ _ _ Hfl) as [Hsorted Hperm].
    do 4 (split; [done|]).
    split; [symmetry; by eapply rows_for_length|]. split; [done|].
    intros Hs; by rewrite Hs in Hstop.
  - destruct E as [(Hy & Ht & _)|(done & ev & Hy & Hrows & Hnone & Hexn)];
      [by left|].
    right. exists done, ev. do 4 (split; [done|]).
    rewrite Hy, length_app, <- (rows_for_length _ _ _ _ _ _ _ Hrows).
    cbn [length]. lia.
Qed.

(** ** The table description *)

Lemma pos_inj c c' : RecoEvent.pos c = RecoEvent.pos c' → c = c'.
Proof. by destruct c, c'. Qed.

Lemma pos_bound c : (RecoEvent.pos c < length RecoEvent.columns)%nat.
Proof. destruct c; cbn; lia. Qed.

(** The columns of [RecoEvent] sit at the distinct positions 0 to 22: on a
    full row an assignment is read back as the cell of its column and leaves
    every other column alone. *)
Theorem columns_do_not_overlap (r : TRow.t) c v :
  length r = length RecoEvent.columns →
  RecoEvent.columns !! RecoEvent.pos c = Some c ∧
  TRow.getitem c TRow.defaults = Some (RecoEvent.dflt c) ∧
  TRow.getitem c (TRow.setitem c v r) = Some (store (RecoEvent.ctype c) v) ∧
  (∀ c', c' ≠ c → TRow.getitem c' (TRow.setitem c v r) = TRow.getitem c' r) ∧
  length (TRow.setitem c v r) = length r.
Proof.
  intros Hlen. split; [by destruct c|]. split; [by destruct c|].
  unfold TRow.getitem, TRow.setitem. split.
  - apply list_lookup_insert_eq. rewrite Hlen. apply pos_bound.
  - split; [|by rewrite length_insert].
    intros c' Hc. apply list_lookup_insert_ne. intros Hp.
    by apply pos_inj in Hp.
Qed.

(** ** The summation of [numpy.sum] *)

(** With fuel for the length of the array, [pairwise_sum] is the recursion
    of numpy's routine: the fallback at fuel 0 is never taken on an array of
    more than 128 numbers. *)
Lemma pairwise_sum_fuel fuel : ∀ fuel' a,
  (length a ≤ fuel)%nat → (length a ≤ fuel')%nat →
  pairwise_sum fuel a = pairwise_sum fuel' a.
Proof.
  induction fuel as [|fuel IH]; intros fuel' a H1 H2.
  - destruct a; [|cbn in H1; lia]. by destruct fuel'.
  - destruct fuel' as [|fuel'].
    { destruct a; [done|cbn in H2; lia]. }
    cbn [pairwise_sum]. destruct (128 <? length a)%nat eqn:Hn; [|done].
    apply Nat.ltb_lt in Hn.
    set (n2 := (length a / 2 - (length a / 2) mod 8)%nat).
    assert (Hn2 : (0 < n2 < length a)%nat).
    { subst n2.
      pose proof (Nat.div_mod_eq (length a) 2).
      pose proof (Nat.mod_upper_bound (length a) 2 ltac:(done)).
      pose proof (Nat.mod_upper_bound (length a / 2) 8 ltac:(done)).
      lia. }
    f_equal; apply IH; rewrite ?length_take, ?length_drop; lia.
Qed.

Lemma pairwise_sum_unfold fuel a :
  (length a ≤ fuel)%nat →
  pairwise_sum fuel a =
    if (128 <? length a)%nat then
      let n2 := (length a / 2 - (length a / 2) mod 8)%nat in
      F64.add (pairwise_sum fuel (take n2 a)) (pairwise_sum fuel (drop n2 a))
    else block_sum a.
Proof.
  intros Hf. destruct fuel as [|fuel].
  { destruct a; [done|cbn in Hf; lia]. }
  destruct (128 <? length a)%nat eqn:Hn.
  2: { cbn [pairwise_sum]. by rewrite Hn. }
  cbv zeta. pose proof Hn as Hlt. apply Nat.ltb_lt in Hlt.
  set (n2 := (length a / 2 - (length a / 2) mod 8)%nat).
  assert (Hn2 : (0 < n2 < length a)%nat).
  { subst n2.
    pose proof (Nat.div_mod_eq (length a) 2).
    pose proof (Nat.mod_upper_bound (length a) 2 ltac:(done)).
    pose proof (Nat.mod_upper_bound (length a / 2) 8 ltac:(done)).
    lia. }
  rewrite (pairwise_sum_fuel (S fuel) fuel (take n2 a)),
          (pairwise_sum_fuel (S fuel) fuel (drop n2 a));
    rewrite ?length_take, ?length_drop; try lia.
  cbn [pairwise_sum]. by rewrite Hn.
Qed.

(** Eight numbers: the first is added to the second, not to the sum of
    the others. *)
Lemma np_sum_eight a0 a1 a2 a3 a4 a5 a6 a7 :
  np_sum [a0; a1; a2; a3; a4; a5; a6; a7] =
    F64.add F64.zero
      (F64.add (F64.add (F64.add a0 a1) (F64.add a2 a3))
               (F64.add (F64.add a4 a5) (F64.add a6 a7))).
Proof. reflexivity. Qed.

(** ** NaN in the fusion *)

Lemma add_nan_l x : F64.add F64.nan x = F64.nan.
Proof. reflexivity. Qed.

Lemma add_nan_r x : F64.add x F64.nan = F64.nan.
Proof. by destruct x. Qed.

Lemma foldl_add_nan l : foldl F64.add F64.nan l = F64.nan.
Proof. by induction l. Qed.

Lemma foldl_add_has_nan l a :
  a = F64.nan ∨ F64.nan ∈ l → foldl F64.add a l = F64.nan.
Proof.
  revert a. induction l as [|x l IH]; intros a [Ha|Hin].
  - done.
  - by apply elem_of_nil in Hin.
  - subst a. apply foldl_add_nan.
  - apply elem_of_cons in Hin as [<-|Hin]; cbn [foldl].
    + rewrite add_nan_r. apply foldl_add_nan.
    + apply IH. by right.
Qed.

Lemma sum8_nan r : has_nan8 r → sum8 r = F64.nan.
Proof.
  destruct r as [[[[[[[r0 r1] r2] r3] r4] r5] r6] r7]. cbn [has_nan8 sum8].
  intros H. repeat (apply elem_of_cons in H as [<-|H];
                    [by rewrite ?add_nan_l, ?add_nan_r|]).
  by apply elem_of_nil in H.
Qed.

Lemma add8_nan r b : has_nan8 r ∨ has_nan8 b → has_nan8 (add8 r b).
Proof.
  destruct r as [[[[[[[r0 r1] r2] r3] r4] r5] r6] r7].
  destruct b as [[[[[[[b0 b1] b2] b3] b4] b5] b6] b7].
  cbn [has_nan8 add8]. intros [H|H];
    repeat (apply elem_of_cons in H as [<-|H];
            [rewrite ?add_nan_l, ?add_nan_r; set_solver|]);
    by apply elem_of_nil in H.
Qed.

Lemma unrolled_nan n : ∀ r a,
  (length a ≤ n)%nat →
  has_nan8 r ∨ F64.nan ∈ a →
  has_nan8 (unrolled r a).1 ∨ F64.nan ∈ (unrolled r a).2.
Proof.
  induction n as [|n IH]; intros r a Hlen H.
  { destruct a; [|cbn in Hlen; lia]. done. }
  destruct a as [|a0 [|a1 [|a2 [|a3 [|a4 [|a5 [|a6 [|a7 rest]]]]]]]];
    try done.
  cbn [unrolled]. apply IH; [cbn [length] in Hlen; lia|].
  destruct H as [H|H]; [left; apply add8_nan; by left|].
  assert (F64.nan ∈ [a0; a1; a2; a3; a4; a5; a6; a7] ∨ F64.nan ∈ rest)
    as [H8|Hr].
  { change (a0 :: a1 :: a2 :: a3 :: a4 :: a5 :: a6 :: a7 :: rest)
      with ([a0; a1; a2; a3; a4; a5; a6; a7] ++ rest) in H.
    by apply elem_of_app in H. }
  - left. apply add8_nan. by right.
  - by right.
Qed.

Lemma block_sum_nan a : F64.nan ∈ a → block_sum a = F64.nan.
Proof.
  intros H.
  destruct a as [|a0 [|a1 [|a2 [|a3 [|a4 [|a5 [|a6 [|a7 rest]]]]]]]];
    try (apply foldl_add_has_nan; by right).
  cbn [block_sum].
  assert (has_nan8 (a0, a1, a2, a3, a4, a5, a6, a7) ∨ F64.nan ∈ rest) as H'.
  { change (a0 :: a1 :: a2 :: a3 :: a4 :: a5 :: a6 :: a7 :: rest)
      with ([a0; a1; a2; a3; a4; a5; a6; a7] ++ rest) in H.
    by apply elem_of_app in H. }
  apply (unrolled_nan (length rest) _ _ (le_n _)) in H'.
  destruct (unrolled _ rest) as [r rest']. cbn [fst snd] in H'.
  apply foldl_add_has_nan. destruct H' as [H'|H']; [left|by right].
  by apply sum8_nan.
Qed.

Lemma pairwise_sum_nan fuel : ∀ a,
  F64.nan ∈ a → pairwise_sum fuel a = F64.nan.
Proof.
  induction fuel as [|fuel IH]; intros a H; [by apply block_sum_nan|].
  cbn [pairwise_sum]. destruct (128 <? length a)%nat; [|by apply block_sum_nan].
  cbv zeta. set (n2 := (length a / 2 - (length a / 2) mod 8)%nat).
  rewrite <- (take_drop n2 a) in H. apply elem_of_app in H as [H|H].
  - by rewrite (IH _ H), add_nan_l.
  - by rewrite (IH _ H), add_nan_r.
Qed.

(** A telescope whose estimate or whose intensity is NaN makes the fused
    value NaN, whatever the other telescopes, however many they are and
    whatever its weight. *)
Theorem nan_poisons_fusion weight_tel value_tel i w v :
  weight_tel !! i = Some w →
  value_tel !! i = Some v →
  w = F64.nan ∨ v = F64.nan →
  weighted_mean weight_tel value_tel = F64.nan.
Proof.
  intros Hw Hv Hnan. unfold weighted_mean, np_sum.
  rewrite pairwise_sum_nan; [done|].
  apply list_elem_of_lookup. exists i.
  rewrite lookup_zip_with, Hw, Hv. cbn. f_equal.
  destruct Hnan as [-> | ->]; [done|by destruct w].
Qed.

(** ** The sample runs *)

Local Abbreviation sample_body :=
  (body Sample.log10 Sample.angular_separation Sample.to_value
     Sample.regressor Sample.classifier).
Local Abbreviation sample_row :=
  (event_row Sample.log10 Sample.angular_separation Sample.to_value
     Sample.regressor Sample.classifier).
Local Abbreviation sample_rows :=
  (rows_for Sample.log10 Sample.angular_separation Sample.to_value
     Sample.regressor Sample.classifier).
Local Abbreviation sample_main sigint :=
  (main Sample.log10 Sample.angular_separation Sample.to_value
     Sample.regressor Sample.classifier Sample.glob Sample.events_of
     Sample.format_other Sample.load_error Sample.open_error
     Sample.cutflow_zero_division sigint).
Local Abbreviation both_main sigint :=
  (main Sample.log10 Sample.angular_separation Sample.to_value
     SampleFiles.both SampleFiles.both Sample.glob Sample.events_of
     Sample.format_other Sample.load_error Sample.open_error
     Sample.cutflow_zero_division sigint).

(** The sample run from its first to its last action: the model files of
    the mode, the table in memory, the files in sorted order, and a report
    that stops at the division by zero of the image counter. *)
Lemma sample_run_log :
  ∃ row1 row2 row3,
    log (sample_main Sample.no_sigint Sample.args init).2 =
      [ ALoad "models/classifier_tail_{cam_id}_AdaBoostClassifier.pkl.gz";
        ALoad "models/regressor_tail_{cam_id}_AdaBoostRegressor.pkl.gz";
        AOpenFile "no_outfile.h5" true; ACreateTable;
        ASource "in/a.gz";
        AYield Sample.single;
        APredict "LSTCam"
          (energy_features Sample.log10 (Sample.moments 3) (Sample.q 100 "m")
             (Sample.q 9000 "m"));
        ADecision "LSTCam"
          (score_features Sample.log10
             (S754_finite false 7205759403792795 (-56)) (Sample.moments 3)
             (Sample.q 9000 "m"));
        AFlush; AAppend row1; AInspect Inner false;
        AYield Sample.missing; AFlush; AAppend row2; AInspect Inner false;
        AInspect Outer false;
        ASource "in/b.gz";
        AYield Sample.empty; AFlush; AAppend row3; AInspect Inner false;
        AInspect Outer false;
        AFlush; APrint ""; ACutFlow "EventCutFlow"; APrint "";
        ACutFlow "ImageCutFlow"; APrint "Job done!" ] ∧
    disk (sample_main Sample.no_sigint Sample.args init).2 =
      [row1; row2; row3].
Proof. eexists _, _, _. split; vm_compute; reflexivity. Qed.

(** An event with an empty [hillas_dict]: the fusion divides 0.0 by 0, no
    error is raised, and NaN is recorded as energy and as score in a row
    whose [success] is true. *)
Lemma C1_counterexample :
  hillas_dict Sample.empty = Some [] ∧
  ∃ s row,
    sample_body Sample.empty fresh = (Ok (), s) ∧
    iobuf s = [row] ∧
    TRow.getitem RecoEvent.success row = Some (VBool true) ∧
    TRow.getitem RecoEvent.reco_energy row = Some (VFloat F64.nan) ∧
    TRow.getitem RecoEvent.score row = Some (VFloat F64.nan).
Proof.
  split; [reflexivity|]. eexists _, _.
  split; [vm_compute; reflexivity|]. by vm_compute.
Qed.

Lemma C1_witness :
  hillas_dict Sample.empty = Some [] ∧
  F64.is_zero (py_sum (weights [])) = true ∧
  wrec fresh = TRow.defaults ∧
  (∀ value_tel, F64.is_finite (weighted_mean (weights []) value_tel) = false) ∧
  (sample_body Sample.empty fresh).1 = Ok ().
Proof.
  do 3 (split; [reflexivity|]).
  pose proof (C1_zero_weight_fusion_is_not_an_error
                Sample.log10 Sample.angular_separation Sample.to_value
                Sample.regressor Sample.classifier Sample.empty [] fresh
                eq_refl eq_refl eq_refl) as (H1 & H2 & _).
  split; [exact H1|]. apply (proj2 (H2 eq_refl)). by eexists.
Defined.

(** A run over a file whose only event has a telescope with a camera type
    that the regressor bank does not know: the run ends with [KeyError],
    the event has no record. *)
Lemma C2_counterexample :
  hillas_dict Sample.unknown_cam = Some [(2%nat, Sample.moments 3)] ∧
  subarray_tel Sample.unknown_cam !! 2%nat = Some "FlashCam" ∧
  Sample.regressor !! "FlashCam" = None ∧
  ∃ s,
    sample_main Sample.no_sigint Sample.args_c init = (Raise KeyError, s) ∧
    yielded (log s) = [Sample.unknown_cam] ∧
    table s = [].
Proof.
  do 3 (split; [by vm_compute|]). eexists.
  split; [vm_compute; reflexivity|]. by vm_compute.
Qed.

Lemma C2_witness :
  hillas_dict Sample.unknown_cam = Some [(2%nat, Sample.moments 3)] ∧
  (2%nat, Sample.moments 3) ∈ [(2%nat, Sample.moments 3)] ∧
  subarray_tel Sample.unknown_cam !! 2%nat = Some "FlashCam" ∧
  Sample.regressor !! "FlashCam" = None ∧
  wrec fresh = TRow.defaults ∧
  ∃ e s', sample_body Sample.unknown_cam fresh = (Raise e, s') ∧
          table s' = table fresh.
Proof.
  assert (H1 : subarray_tel Sample.unknown_cam !! 2%nat = Some "FlashCam")
    by (vm_compute; reflexivity).
  assert (H2 : Sample.regressor !! "FlashCam" = None)
    by (vm_compute; reflexivity).
  split; [reflexivity|]. split; [constructor|]. do 2 (split; [done|]).
  split; [reflexivity|].
  exact (proj1 (C2_missing_model_ends_the_run
                  Sample.log10 Sample.angular_separation Sample.to_value
                  Sample.regressor Sample.classifier Sample.glob
                  Sample.events_of Sample.format_other Sample.load_error
                  Sample.open_error Sample.cutflow_zero_division
                  Sample.no_sigint Sample.unknown_cam
                  [(2%nat, Sample.moments 3)] 2%nat (Sample.moments 3)
                  "FlashCam" fresh eq_refl (list_elem_of_here _ _) H1
                  (or_introl H2) eq_refl)).
Defined.

(** A run over all three sample files: the fourth event read has a
    telescope without a model, the run ends with [KeyError]; four events
    were yielded and three records appended, two of them in storage. *)
Lemma C3_counterexample :
  ∃ s,
    sample_main Sample.no_sigint SampleFiles.all_files init =
      (Raise KeyError, s) ∧
    yielded (log s) =
      [Sample.single; Sample.missing; Sample.empty; Sample.unknown_cam] ∧
    length (table s) = 3%nat ∧
    length (disk s) = 2%nat.
Proof.
  eexists. split; [vm_compute; reflexivity|]. by vm_compute.
Qed.

Lemma C3_witness :
  sample_main Sample.no_sigint Sample.args init =
    (Ok (), (sample_main Sample.no_sigint Sample.args init).2) ∧
  ∃ filenamelist,
    filenames Sample.glob Sample.args = Some filenamelist ∧
    Sorted String.le filenamelist ∧
    sample_rows
      (yielded (log (sample_main Sample.no_sigint Sample.args init).2))
      (disk (sample_main Sample.no_sigint Sample.args init).2) ∧
    yielded (log (sample_main Sample.no_sigint Sample.args init).2) =
      all_events Sample.events_of filenamelist.
Proof.
  assert (E : sample_main Sample.no_sigint Sample.args init =
                (Ok (), (sample_main Sample.no_sigint Sample.args init).2))
    by (vm_compute; reflexivity).
  split; [exact E|].
  destruct (C3_one_record_per_event_in_order
              Sample.log10 Sample.angular_separation Sample.to_value
              Sample.regressor Sample.classifier Sample.glob Sample.events_of
              Sample.format_other Sample.load_error Sample.open_error
              Sample.cutflow_zero_division Sample.no_sigint Sample.args
              (Ok ()) _ E)
    as (_ & fl & Hfl & Hsorted & _ & _ & Hrows & _ & _ & Hall).
  exists fl. split; [exact Hfl|]. split; [exact Hsorted|].
  split; [exact Hrows|]. apply Hall. vm_compute. reflexivity.
Defined.

(** One telescope of intensity 3 whose energy estimate is the double 0.1:
    the fused energy is the next double, 0.10000000000000002.  One
    telescope of intensity 2^1000 and an estimate of 2^100: the product
    overflows and the fused value is infinite. *)
Lemma C4_counterexample :
  hillas_dict Sample.single = Some [(1%nat, Sample.moments 3)] ∧
  F64.is_pos (Hillas.intensity (Sample.moments 3)) = true ∧
  (energy_loop Sample.log10 Sample.regressor Sample.single
     [(1%nat, Sample.moments 3)] (h_max (Sample.shower 9000))).1 =
    Ok [Sample.tenth] ∧
  Sample.tenth = S754_finite false 7205759403792794 (-56) ∧
  (fused_energy Sample.log10 Sample.regressor Sample.single
     [(1%nat, Sample.moments 3)]).1 =
    Ok (S754_finite false 7205759403792795 (-56)) ∧
  (fused_energy Sample.log10 Sample.regressor Sample.single
     [(1%nat, Sample.moments 3)]).1 ≠ Ok Sample.tenth ∧
  F64.is_pos (F64.of_Z (2 ^ 1000)) = true ∧
  weighted_mean [F64.of_Z (2 ^ 1000)] [F64.of_Z (2 ^ 100)] =
    S754_infinity false.
Proof.
  do 5 (split; [by vm_compute|]). split; [vm_compute; congruence|].
  split; by vm_compute.
Qed.

Lemma C4_witness :
  hillas_dict Sample.single = Some [(1%nat, Sample.moments 3)] ∧
  F64.is_pos (Hillas.intensity (Sample.moments 3)) = true ∧
  (fused_energy Sample.log10 Sample.regressor Sample.single
     [(1%nat, Sample.moments 3)]).1 =
    Ok (F64.div (F64.add F64.zero (F64.mul (F64.of_Z 3) Sample.tenth))
          (F64.of_Z 3)).
Proof.
  do 2 (split; [reflexivity|]).
  pose proof (C4_single_contributor_quotient
                Sample.log10 Sample.angular_separation Sample.to_value
                Sample.regressor Sample.classifier Sample.single 1%nat
                (Sample.moments 3) eq_refl eq_refl) as (_ & H & _).
  specialize (H (Sample.shower 9000) Sample.tenth
    (energy_loop Sample.log10 Sample.regressor Sample.single
       [(1%nat, Sample.moments 3)] (h_max (Sample.shower 9000))).2 eq_refl).
  rewrite H; [reflexivity|]. vm_compute. reflexivity.
Defined.

Lemma C5_witness :
  hillas_dict Sample.single = Some [(1%nat, Sample.moments 3)] ∧
  wrec fresh = TRow.defaults ∧
  ∃ pcalls dcalls tail,
    log (sample_body Sample.single fresh).2 =
      log fresh ++ pcalls ++ dcalls ++ tail ∧
    Forall is_predict pcalls ∧
    Forall (is_decision_on
              (Sample.log10 (S754_finite false 7205759403792795 (-56))))
      dcalls.
Proof.
  do 2 (split; [reflexivity|]).
  destruct (C5_classifier_sees_fused_energy
              Sample.log10 Sample.angular_separation Sample.to_value
              Sample.regressor Sample.classifier Sample.single
              [(1%nat, Sample.moments 3)] fresh
              (sample_body Sample.single fresh).1
              (sample_body Sample.single fresh).2
              eq_refl eq_refl (surjective_pairing _))
    as (pcalls & dcalls & tail & Hlog & Hp & _ & Hd).
  exists pcalls, dcalls, tail. split; [exact Hlog|]. split; [exact Hp|].
  exact (proj1 Hd).
Defined.



Lemma C7_witness :
  wrec fresh = TRow.defaults ∧
  sample_body Sample.single fresh =
    (Ok (), (sample_body Sample.single fresh).2) ∧
  ∃ row,
    iobuf (sample_body Sample.single fresh).2 = [row] ∧
    disk (sample_body Sample.single fresh).2 = table fresh.
Proof.
  assert (E : sample_body Sample.single fresh =
                (Ok (), (sample_body Sample.single fresh).2))
    by (vm_compute; reflexivity).
  split; [reflexivity|]. split; [exact E|].
  destruct (C7_row_still_buffered
              Sample.log10 Sample.angular_separation Sample.to_value
              Sample.regressor Sample.classifier Sample.single fresh _
              eq_refl E) as (row & l & _ & _ & Hio & Hd).
  exists row. split; [exact Hio|exact Hd].
Defined.

(** In the sample run the first row is appended after the first flush and
    is still only in the buffer when the second event arrives. *)
Lemma flush_precedes_append_in_sample :
  ∃ row,
    sample_row Sample.single = Some row ∧
    last (log (sample_body Sample.single fresh).2) = Some (AAppend row) ∧
    iobuf (sample_body Sample.single fresh).2 = [row] ∧
    disk (sample_body Sample.single fresh).2 = [].
Proof. eexists. split; [vm_compute; reflexivity|]. by vm_compute. Qed.

Lemma C8_witness :
  sample_main Sample.sigint_once Sample.args init =
    (Ok (), (sample_main Sample.sigint_once Sample.args init).2) ∧
  stop (sample_main Sample.sigint_once Sample.args init).2 = true ∧
  iobuf (sample_main Sample.sigint_once Sample.args init).2 = [] ∧
  length (disk (sample_main Sample.sigint_once Sample.args init).2) =
    length (yielded (log (sample_main Sample.sigint_once Sample.args init).2)).
Proof.
  assert (E : sample_main Sample.sigint_once Sample.args init =
                (Ok (), (sample_main Sample.sigint_once Sample.args init).2))
    by (vm_compute; reflexivity).
  assert (Hs : stop (sample_main Sample.sigint_once Sample.args init).2 = true)
    by (vm_compute; reflexivity).
  split; [exact E|]. split; [exact Hs|].
  destruct (C8_cancellation_keeps_whole_rows
              Sample.log10 Sample.angular_separation Sample.to_value
              Sample.regressor Sample.classifier Sample.glob Sample.events_of
              Sample.format_other Sample.load_error Sample.open_error
              Sample.cutflow_zero_division Sample.sigint_once Sample.args
              _ E Hs)
    as (_ & _ & Hio & _ & Hlen & _).
  split; [exact Hio|exact Hlen].
Defined.

(** The cancelled sample run: the interrupt arrives while the second of
    three events is processed; two rows are stored, the third event is
    never read. *)
Lemma cancelled_sample_run :
  yielded (log (sample_main Sample.sigint_once Sample.args init).2) =
    [Sample.single; Sample.missing] ∧
  length (disk (sample_main Sample.sigint_once Sample.args init).2) = 2%nat ∧
  yielded (log (sample_main Sample.no_sigint Sample.args init).2) =
    [Sample.single; Sample.missing; Sample.empty].
Proof. by vm_compute. Qed.

Lemma C9_witness :
  truthy (infile_list Sample.no_args) = false ∧
  sample_main Sample.no_sigint Sample.no_args init =
    (Raise UnboundLocalError, init).
Proof.
  split; [reflexivity|].
  exact (proj1 (C9_unbound_filenamelist
                  Sample.log10 Sample.angular_separation Sample.to_value
                  Sample.regressor Sample.classifier Sample.glob
                  Sample.events_of Sample.format_other Sample.load_error
                  Sample.open_error Sample.cutflow_zero_division
                  Sample.no_sigint Sample.no_args eq_refl)).
Defined.

Lemma C10_witness :
  yielded (log (sample_main Sample.no_sigint Sample.args init).2) !! 0%nat =
    Some Sample.single ∧
  ∃ row,
    disk (sample_main Sample.no_sigint Sample.args init).2 !! 0%nat =
      Some row ∧
    TRow.getitem RecoEvent.obs_id row = Some (VInt (wrap 16 70000)) ∧
    wrap 16 70000 ≠ 70000.
Proof.
  assert (E : sample_main Sample.no_sigint Sample.args init =
                (Ok (), (sample_main Sample.no_sigint Sample.args init).2))
    by (vm_compute; reflexivity).
  assert (Hy : yielded (log (sample_main Sample.no_sigint Sample.args init).2)
                 !! 0%nat = Some Sample.single) by (vm_compute; reflexivity).
  split; [exact Hy|].
  destruct (C10_identifier_cells
              Sample.log10 Sample.angular_separation Sample.to_value
              Sample.regressor Sample.classifier Sample.glob Sample.events_of
              Sample.format_other Sample.load_error Sample.open_error
              Sample.cutflow_zero_division Sample.no_sigint Sample.args
              (Ok ()) _ 0%nat Sample.single E Hy)
    as (_ & _ & Hcells & Hrow & _ & _ & _ & _ & Hne & _).
  destruct (Hrow eq_refl) as (row & Hd & Ht).
  exists row. split; [exact Hd|]. split; [exact (proj1 (Hcells row Ht))|].
  apply Hne. unfold in_range. cbn. lia.
Defined.

(** ** Further sample runs *)

Lemma columns_do_not_overlap_witness :
  length TRow.defaults = length RecoEvent.columns ∧
  TRow.getitem RecoEvent.score
    (TRow.setitem RecoEvent.score (VFloat F64.zero) TRow.defaults) =
    Some (store (RecoEvent.ctype RecoEvent.score) (VFloat F64.zero)).
Proof.
  split; [reflexivity|].
  exact (proj1 (proj2 (proj2
    (columns_do_not_overlap TRow.defaults RecoEvent.score (VFloat F64.zero)
       eq_refl)))).
Defined.

Lemma reserved_columns_stay_nan_witness :
  ∃ row,
    row ∈ table (sample_main Sample.no_sigint Sample.args init).2 ∧
    TRow.getitem RecoEvent.success row = Some (VBool true) ∧
    TRow.getitem RecoEvent.gammaness row = Some (VFloat F64.nan).
Proof.
  assert (∃ row, table (sample_main Sample.no_sigint Sample.args init).2
                   !! 0%nat = Some row) as [row Hrow].
  { eexists. vm_compute. reflexivity. }
  assert (Hs : TRow.getitem RecoEvent.success row = Some (VBool true)).
  { vm_compute in Hrow. injection Hrow as <-. reflexivity. }
  exists row. split; [by eapply list_elem_of_lookup_2|]. split; [exact Hs|].
  exact (proj1 (reserved_columns_stay_nan
                  Sample.log10 Sample.angular_separation Sample.to_value
                  Sample.regressor Sample.classifier Sample.glob
                  Sample.events_of Sample.format_other Sample.load_error
                  Sample.open_error Sample.cutflow_zero_division
                  Sample.no_sigint Sample.args _ _ row
                  (surjective_pairing _) (list_elem_of_lookup_2 _ _ _ Hrow))).
Defined.

Lemma row_belongs_to_its_event_witness :
  ∃ row,
    yielded (log (sample_main Sample.no_sigint Sample.args init).2) !! 0%nat =
      Some Sample.single ∧
    table (sample_main Sample.no_sigint Sample.args init).2 !! 0%nat =
      Some row ∧
    TRow.getitem RecoEvent.success row = Some (VBool true) ∧
    TRow.getitem RecoEvent.NTels_reco row = Some (VInt (wrap 16 1)).
Proof.
  assert (Hy : yielded (log (sample_main Sample.no_sigint Sample.args init).2)
                 !! 0%nat = Some Sample.single) by (vm_compute; reflexivity).
  assert (∃ row, table (sample_main Sample.no_sigint Sample.args init).2
                   !! 0%nat = Some row) as [row Hrow].
  { eexists. vm_compute. reflexivity. }
  exists row. split; [exact Hy|]. split; [exact Hrow|].
  destruct (row_belongs_to_its_event
              Sample.log10 Sample.angular_separation Sample.to_value
              Sample.regressor Sample.classifier Sample.glob Sample.events_of
              Sample.format_other Sample.load_error Sample.open_error
              Sample.cutflow_zero_division Sample.no_sigint Sample.args
              _ _ 0%nat Sample.single row (surjective_pairing _) Hy Hrow)
    as (Hs & _ & _ & _ & Hn).
  split; [exact Hs|]. exact (proj1 (proj2 (Hn _ eq_refl))).
Defined.

Lemma identifiers_in_range_are_kept_witness :
  yielded (log (sample_main Sample.no_sigint SampleFiles.small_file init).2)
    !! 0%nat = Some Sample.small_ids ∧
  in_range 16 7 ∧ in_range 32 12 ∧
  ∃ row,
    disk (sample_main Sample.no_sigint SampleFiles.small_file init).2 !! 0%nat
      = Some row ∧
    TRow.getitem RecoEvent.obs_id row = Some (VInt 7) ∧
    TRow.getitem RecoEvent.event_id row = Some (VInt 12).
Proof.
  assert (E : sample_main Sample.no_sigint SampleFiles.small_file init =
                (Ok (),
                 (sample_main Sample.no_sigint SampleFiles.small_file init).2))
    by (vm_compute; reflexivity).
  assert (Hy : yielded
                 (log (sample_main Sample.no_sigint SampleFiles.small_file
                         init).2) !! 0%nat = Some Sample.small_ids)
    by (vm_compute; reflexivity).
  assert (H16 : in_range 16 7) by (unfold in_range; cbn; lia).
  assert (H32 : in_range 32 12) by (unfold in_range; cbn; lia).
  do 3 (split; [done|]).
  exact (proj2 (identifiers_in_range_are_kept
                  Sample.log10 Sample.angular_separation Sample.to_value
                  Sample.regressor Sample.classifier Sample.glob
                  Sample.events_of Sample.format_other Sample.load_error
                  Sample.open_error Sample.cutflow_zero_division
                  Sample.no_sigint SampleFiles.small_file (Ok ()) _ 0%nat
                  Sample.small_ids E Hy H16 H32) eq_refl).
Defined.

Lemma nan_poisons_fusion_witness :
  [F64.zero; F64.of_Z 3] !! 0%nat = Some F64.zero ∧
  [F64.nan; Sample.tenth] !! 0%nat = Some F64.nan ∧
  weighted_mean [F64.zero; F64.of_Z 3] [F64.nan; Sample.tenth] = F64.nan.
Proof.
  do 2 (split; [reflexivity|]).
  exact (nan_poisons_fusion [F64.zero; F64.of_Z 3] [F64.nan; Sample.tenth]
           0%nat F64.zero F64.nan eq_refl eq_refl (or_intror eq_refl)).
Defined.


Lemma one_record_per_event_per_match_witness :
  both_main Sample.no_sigint SampleFiles.twice init =
    (Ok (), (both_main Sample.no_sigint SampleFiles.twice init).2) ∧
  stop (both_main Sample.no_sigint SampleFiles.twice init).2 = false ∧
  length (disk (both_main Sample.no_sigint SampleFiles.twice init).2) =
    length (flat_map Sample.events_of
              (flat_map (λ f, Sample.glob ("in" +:+ "/" +:+ f))
                 ["c.gz"; "c.gz"])).
Proof.
  assert (E : both_main Sample.no_sigint SampleFiles.twice init =
                (Ok (), (both_main Sample.no_sigint SampleFiles.twice init).2))
    by (vm_compute; reflexivity).
  assert (Hs : stop (both_main Sample.no_sigint SampleFiles.twice init).2
               = false) by (vm_compute; reflexivity).
  split; [exact E|]. split; [exact Hs|].
  exact (proj2 (one_record_per_event_per_match
                  Sample.log10 Sample.angular_separation Sample.to_value
                  SampleFiles.both SampleFiles.both Sample.glob
                  Sample.events_of Sample.format_other Sample.load_error
                  Sample.open_error Sample.cutflow_zero_division
                  Sample.no_sigint SampleFiles.twice _ E Hs)).
Defined.

Lemma no_interrupt_no_event_left_witness :
  (∀ k, Sample.no_sigint k = false) ∧
  sample_main Sample.no_sigint Sample.args init =
    (Ok (), (sample_main Sample.no_sigint Sample.args init).2) ∧
  stop (sample_main Sample.no_sigint Sample.args init).2 = false.
Proof.
  assert (E : sample_main Sample.no_sigint Sample.args init =
                (Ok (), (sample_main Sample.no_sigint Sample.args init).2))
    by (vm_compute; reflexivity).
  split; [intros k; reflexivity|]. split; [exact E|].
  exact (proj1 (no_interrupt_no_event_left
                  Sample.log10 Sample.angular_separation Sample.to_value
                  Sample.regressor Sample.classifier Sample.glob
                  Sample.events_of Sample.format_other Sample.load_error
                  Sample.open_error Sample.cutflow_zero_division
                  Sample.no_sigint Sample.args _ (λ k, eq_refl) E)).
Defined.

Lemma cancellation_is_prompt_witness :
  sample_main Sample.sigint_once Sample.args init =
    (Ok (), (sample_main Sample.sigint_once Sample.args init).2) ∧
  ∃ k, Sample.sigint_once k = true ∧
       (tick (sample_main Sample.sigint_once Sample.args init).2 = S k ∨
        tick (sample_main Sample.sigint_once Sample.args init).2 = S (S k)).
Proof.
  assert (E : sample_main Sample.sigint_once Sample.args init =
                (Ok (), (sample_main Sample.sigint_once Sample.args init).2))
    by (vm_compute; reflexivity).
  split; [exact E|].
  pose proof (cancellation_is_prompt
                Sample.log10 Sample.angular_separation Sample.to_value
                Sample.regressor Sample.classifier Sample.glob
                Sample.events_of Sample.format_other Sample.load_error
                Sample.open_error Sample.cutflow_zero_division
                Sample.sigint_once Sample.args _ E) as H.
  assert (Hs : stop (sample_main Sample.sigint_once Sample.args init).2 = true)
    by (vm_compute; reflexivity).
  rewrite Hs in H. destruct H as (k & Hk & _ & Ht).
  exists k. split; [exact Hk|exact Ht].
Defined.

Lemma aborted_run_keeps_last_row_buffered_witness :
  sample_main Sample.no_sigint SampleFiles.all_files init =
    (Raise KeyError,
     (sample_main Sample.no_sigint SampleFiles.all_files init).2) ∧
  length (yielded
            (log (sample_main Sample.no_sigint SampleFiles.all_files init).2))
    = 4%nat ∧
  length (disk (sample_main Sample.no_sigint SampleFiles.all_files init).2)
    = 2%nat ∧
  ∃ evs ev,
    yielded (log (sample_main Sample.no_sigint SampleFiles.all_files init).2)
      = evs ++ [ev] ∧
    length (iobuf (sample_main Sample.no_sigint SampleFiles.all_files init).2)
      = Nat.min 1 (length evs).
Proof.
  assert (E : sample_main Sample.no_sigint SampleFiles.all_files init =
                (Raise KeyError,
                 (sample_main Sample.no_sigint SampleFiles.all_files init).2))
    by (vm_compute; reflexivity).
  assert (Hy : yielded
                 (log (sample_main Sample.no_sigint SampleFiles.all_files
                         init).2) ≠ []) by (vm_compute; discriminate).
  split; [exact E|]. do 2 (split; [vm_compute; reflexivity|]).
  destruct (aborted_run_keeps_last_row_buffered
              Sample.log10 Sample.angular_separation Sample.to_value
              Sample.regressor Sample.classifier Sample.glob Sample.events_of
              Sample.format_other Sample.load_error Sample.open_error
              Sample.cutflow_zero_division Sample.no_sigint
              SampleFiles.all_files _ _ E Hy)
    as (evs & ev & Hevs & _ & _ & Hio & _).
  exists evs, ev. split; [exact Hevs|exact Hio].
Defined.

Lemma model_file_templates_witness :
  brace_free (classifier_dir SampleFiles.wide) = true ∧
  brace_free (regressor_dir SampleFiles.wide) = true ∧
  clf_file SampleFiles.wide =
    FmtOk "models/clf/classifier_tail_{cam_id}_AdaBoostClassifier.pkl.gz".
Proof.
  do 2 (split; [reflexivity|]).
  exact (proj1 (model_file_templates SampleFiles.wide eq_refl eq_refl)).
Defined.

Lemma lone_brace_in_directory_witness :
  filenames Sample.glob SampleFiles.braced = Some ["in/a.gz"; "in/b.gz"] ∧
  classifier_dir SampleFiles.braced = "out" +:+ "}" +:+ "" ∧
  brace_free "out" = true ∧
  sample_main Sample.no_sigint SampleFiles.braced init =
    (Raise ValueError, init).
Proof.
  assert (Hf : filenames Sample.glob SampleFiles.braced =
                 Some ["in/a.gz"; "in/b.gz"]) by (vm_compute; reflexivity).
  split; [exact Hf|]. do 2 (split; [reflexivity|]).
  refine (proj2 (lone_brace_in_directory
                   Sample.log10 Sample.angular_separation Sample.to_value
                   Sample.regressor Sample.classifier Sample.glob
                   Sample.events_of Sample.format_other Sample.load_error
                   Sample.open_error Sample.cutflow_zero_division
                   Sample.no_sigint SampleFiles.braced _ "out" "" Hf _
                   eq_refl eq_refl _)); discriminate.
Defined.

Lemma unknown_telescope_raises_witness :
  hillas_dict SampleFiles.stray = Some [(3%nat, Sample.moments 3)] ∧
  subarray_tel SampleFiles.stray !! 3%nat = None ∧
  wrec fresh = TRow.defaults ∧
  sample_row SampleFiles.stray = None.
Proof.
  assert (H : subarray_tel SampleFiles.stray !! 3%nat = None)
    by (vm_compute; reflexivity).
  split; [reflexivity|]. split; [exact H|]. split; [reflexivity|].
  exact (proj1 (unknown_telescope_raises
                  Sample.log10 Sample.angular_separation Sample.to_value
                  Sample.regressor Sample.classifier SampleFiles.stray
                  [(3%nat, Sample.moments 3)] 3%nat (Sample.moments 3) fresh
                  eq_refl (list_elem_of_here _ _) (or_introl H) eq_refl)).
Defined.
